(** * The useMcpHost protocol layer (src/ui/hooks/useMcpHost.ts)

    A shallow embedding of the React hook that speaks the MCP Apps
    protocol with the host over [window.parent.postMessage]:
    the request correlator ([sendRequest], the pending-request map and
    its 30 s timers), [callTool], the inbound [handleMessage] dispatcher
    and the asynchronous [handleTeardown].

    Modelling choices.
    - Inbound payloads are untyped in the source ([event.data : any]);
      they are modelled by [JsVal], the JSON-like values that structured
      cloning can deliver (no functions, hence no thenables).
    - Every externally visible action of the hook (posting a message,
      touching the document, calling a registered callback, calling a
      promise resolver, logging) is appended to the [trace] of the state,
      in program order.
    - Registered callbacks belong to the embedding application; they are
      assumed to return normally.  The teardown hook returns a promise
      whose settlement is an event of its own.
    - [requestIdRef.current] is a JavaScript number; it is modelled by an
      unbounded integer (the counter cannot reach 2^53 in a session).
    - An [Error] is represented by its [message], the string that
      [new Error] makes of its argument.
    - The application drives the hook through what it returns: it reads
      [isReady] and calls [callTool] and [sendNotification] whenever it
      likes; each call is an event of the loop. *)

From stdpp Require Import gmap strings list fin_maps.
From Stdlib Require Import ZArith DecimalString.

Local Open Scope Z_scope.
Set Warnings "-register-all".

(** ** JavaScript values delivered by the message channel *)

Inductive JsVal : Type :=
| JUndefined
| JNull
| JBool (b : bool)
| JNum (n : Z)
| JStr (s : string)
| JArr (items : list JsVal)
| JObj (fields : list (string * JsVal)).

(** ToBoolean.  [JNum] stands for the integral numbers; the hook does no
    arithmetic on inbound data. *)
Definition truthy (v : JsVal) : bool :=
  match v with
  | JUndefined | JNull => false
  | JBool b => b
  | JNum n => negb (n =? 0)
  | JStr s => negb (String.eqb s "")
  | JArr _ | JObj _ => true
  end.

(** [v !== undefined] *)
Definition defined (v : JsVal) : bool :=
  match v with JUndefined => false | _ => true end.

(** [typeof v === "object"] *)
Definition typeof_object (v : JsVal) : bool :=
  match v with JNull | JArr _ | JObj _ => true | _ => false end.

(** [v === s] for a string literal [s] *)
Definition str_is (s : string) (v : JsVal) : bool :=
  match v with JStr t => String.eqb t s | _ => false end.

(** The first binding of [k] in a property list. *)
Fixpoint field (k : string) (fs : list (string * JsVal)) : JsVal :=
  match fs with
  | [] => JUndefined
  | (k', v) :: rest => if String.eqb k' k then v else field k rest
  end.

(** Property read [v.k] (and [v?.k]) for the property names the hook
    reads: an own property of an object, [undefined] on anything else.
    Every read written without [?.] in the source sits under a guard that
    makes its receiver truthy, so the read never throws. *)
Definition prop (v : JsVal) (k : string) : JsVal :=
  match v with
  | JObj fs => field k fs
  | _ => JUndefined
  end.

(** [a || b] *)
Definition js_or (a b : JsVal) : JsVal := if truthy a then a else b.

(** Decimal index keys, as [Object.entries] produces for arrays and
    strings. *)
Definition index_key (i : nat) : string :=
  NilZero.string_of_uint (Nat.to_uint i).

Fixpoint chars_from (i : nat) (s : string) : list (string * JsVal) :=
  match s with
  | EmptyString => []
  | String c rest => (index_key i, JStr (String c EmptyString)) :: chars_from (S i) rest
  end.

Fixpoint items_from (i : nat) (l : list JsVal) : list (string * JsVal) :=
  match l with
  | [] => []
  | x :: rest => (index_key i, x) :: items_from (S i) rest
  end.

(** [Object.entries(v)] for a truthy [v]; the field list of an object is
    kept in its enumeration order. *)
Definition entries (v : JsVal) : list (string * JsVal) :=
  match v with
  | JObj fs => fs
  | JArr l => items_from 0 l
  | JStr s => chars_from 0 s
  | _ => []
  end.

(** [hay.includes(needle)] on strings *)
Fixpoint includes (needle hay : string) : bool :=
  String.prefix needle hay ||
  match hay with
  | EmptyString => false
  | String _ rest => includes needle rest
  end.

(** [Object.hasOwn(obj, k)] on a property list. *)
Definition has_key (k : string) (fs : list (string * JsVal)) : bool :=
  existsb (λ kv, String.eqb (fst kv) k) fs.

(** ToString; [None] when the conversion throws a TypeError.  A number
    prints its decimal digits, as JavaScript prints a safe integer (see
    [safe_integers]); an array joins its items with commas, [null] and
    [undefined] items as the empty string; a plain object is
    ["[object Object]"], unless it has a [toString] property of its own:
    a cloned value is never callable, and the inherited [valueOf]
    returns the object, so no primitive is found. *)
Fixpoint to_string (v : JsVal) : option string :=
  match v with
  | JUndefined => Some "undefined"
  | JNull => Some "null"
  | JBool b => Some (if b then "true" else "false")
  | JNum n => Some (NilZero.string_of_int (Z.to_int n))
  | JStr s => Some s
  | JArr items =>
      (fix join (l : list JsVal) : option string :=
         match l with
         | [] => Some EmptyString
         | x :: rest =>
             match match x with
                   | JUndefined | JNull => Some EmptyString
                   | _ => to_string x
                   end, join rest with
             | Some a, Some b =>
                 Some (match rest with
                       | [] => a
                       | _ => String.append a (String.append "," b)
                       end)
             | _, _ => None
             end
         end) items
  | JObj fs => if has_key "toString" fs then None else Some "[object Object]"
  end.

(** Whether the numbers [to_string] prints are safe integers, below 2^53
    in magnitude: those JavaScript prints digit for digit (a larger one
    is rounded to 17 significant digits or printed with an exponent).
    The numbers inside an object are not printed. *)
Fixpoint safe_integers (v : JsVal) : bool :=
  match v with
  | JNum n => Z.abs n <? 2 ^ 53
  | JArr items => forallb safe_integers items
  | _ => true
  end.

(** The [message] of [new Error(message)], as a string value; [None]
    when the constructor throws because [message] has no string
    conversion. *)
Definition new_Error (message : JsVal) : option JsVal :=
  match message with
  | JUndefined => Some (JStr "")
  | _ => JStr <$> to_string message
  end.

(** ** Configuration, effects and state of the hook *)

(** [UseMcpHostConfig]: the client identification and which of the
    optional callbacks the application registered. *)
Record Config : Type := {
  name : string;
  version : string;
  onToolInput : bool;
  onToolResult : bool;
  onThemeChange : bool;
  onTeardown : bool;
  onAppState : bool
}.

Inductive Effect : Type :=
| PostMessage (message : JsVal)             (* window.parent.postMessage(message, "*") *)
| SetAttribute (attr value : string)        (* document.documentElement.setAttribute *)
| SetProperty (key : string) (value : JsVal)(* root.style.setProperty *)
| ThemeChanged (theme : string)             (* onThemeChange(theme) *)
| ToolInput (args : JsVal)                  (* onToolInput(args) *)
| ToolResult (result : JsVal)               (* onToolResult(result) *)
| AppState (appState : JsVal)               (* onAppState(appState) *)
| TeardownHook                              (* onTeardown() *)
| Resolve (promise : Z) (result : JsVal)    (* pending.resolve(result) *)
| Reject (promise : Z) (message : JsVal)    (* reject(error), error.message = message *)
| CallToolFulfilled (promise : Z) (result : JsVal)
| CallToolRejected (promise : Z) (message : JsVal)
| SetIsReady (b : bool)                     (* setIsReady(b) *)
| ConsoleLog (text : string) (arg : JsVal)
| ConsoleError (text : string) (arg : JsVal)
| UncaughtTypeError.

(** The [{ resolve, reject }] pair stored in the pending map: both
    functions belong to one promise. *)
Record PendingRecord : Type := { promiseOf : Z }.

Inductive PromiseState : Type :=
| Unsettled
| Fulfilled (result : JsVal)
| Rejected (message : JsVal).

Record State : Type := {
  isReady : bool;                                (* useState(false) *)
  requestIdRef : Z;                              (* useRef(1) *)
  pendingRequestsRef : gmap Z PendingRecord;     (* useRef(new Map()) *)
  promises : gmap Z PromiseState;                (* promises made by sendRequest *)
  timers : list (Z * Z);                         (* armed timeouts: request id, deadline *)
  now : Z;                                       (* wall clock, milliseconds *)
  teardowns : list JsVal;                        (* handleTeardown runs awaiting the hook *)
  trace : list Effect
}.

Definition initial : State :=
  {| isReady := false; requestIdRef := 1; pendingRequestsRef := ∅;
     promises := ∅; timers := []; now := 0; teardowns := []; trace := [] |}.

Definition emit (es : list Effect) (s : State) : State :=
  {| isReady := isReady s; requestIdRef := requestIdRef s;
     pendingRequestsRef := pendingRequestsRef s; promises := promises s;
     timers := timers s; now := now s; teardowns := teardowns s;
     trace := trace s ++ es |}.

Definition set_isReady (b : bool) (s : State) : State :=
  {| isReady := b; requestIdRef := requestIdRef s;
     pendingRequestsRef := pendingRequestsRef s; promises := promises s;
     timers := timers s; now := now s; teardowns := teardowns s;
     trace := trace s |}.

Definition set_requestIdRef (n : Z) (s : State) : State :=
  {| isReady := isReady s; requestIdRef := n;
     pendingRequestsRef := pendingRequestsRef s; promises := promises s;
     timers := timers s; now := now s; teardowns := teardowns s;
     trace := trace s |}.

Definition set_pending (m : gmap Z PendingRecord) (s : State) : State :=
  {| isReady := isReady s; requestIdRef := requestIdRef s;
     pendingRequestsRef := m; promises := promises s;
     timers := timers s; now := now s; teardowns := teardowns s;
     trace := trace s |}.

Definition set_promises (m : gmap Z PromiseState) (s : State) : State :=
  {| isReady := isReady s; requestIdRef := requestIdRef s;
     pendingRequestsRef := pendingRequestsRef s; promises := m;
     timers := timers s; now := now s; teardowns := teardowns s;
     trace := trace s |}.

Definition set_timers (ts : list (Z * Z)) (s : State) : State :=
  {| isReady := isReady s; requestIdRef := requestIdRef s;
     pendingRequestsRef := pendingRequestsRef s; promises := promises s;
     timers := ts; now := now s; teardowns := teardowns s;
     trace := trace s |}.

Definition set_now (t : Z) (s : State) : State :=
  {| isReady := isReady s; requestIdRef := requestIdRef s;
     pendingRequestsRef := pendingRequestsRef s; promises := promises s;
     timers := timers s; now := t; teardowns := teardowns s;
     trace := trace s |}.

Definition set_teardowns (l : list JsVal) (s : State) : State :=
  {| isReady := isReady s; requestIdRef := requestIdRef s;
     pendingRequestsRef := pendingRequestsRef s; promises := promises s;
     timers := timers s; now := now s; teardowns := l;
     trace := trace s |}.

(** ** The operations of the hook *)

Section Hook.

Variable cfg : Config.

(** [sendMessage(message)] *)
Definition sendMessage (message : JsVal) (s : State) : State :=
  emit [PostMessage message] s.

(** The envelope [{ jsonrpc: "2.0", id, method, params }]. *)
Definition request_envelope (id : Z) (method : string) (params : JsVal) : JsVal :=
  JObj [("jsonrpc", JStr "2.0"); ("id", JNum id);
        ("method", JStr method); ("params", params)].

(** The envelope [{ jsonrpc: "2.0", method, params }]. *)
Definition notification_envelope (method : string) (params : JsVal) : JsVal :=
  JObj [("jsonrpc", JStr "2.0"); ("method", JStr method); ("params", params)].

(** The envelope [{ jsonrpc: "2.0", id, result }]. *)
Definition response_envelope (id : JsVal) (result : JsVal) : JsVal :=
  JObj [("jsonrpc", JStr "2.0"); ("id", id); ("result", result)].

Definition TIMEOUT_MS : Z := 30000.

(** [sendRequest(method, params)]: the body of the promise executor.
    The promise it returns is named by the allocated id. *)
Definition sendRequest (method : string) (params : JsVal) (s : State) : Z * State :=
  let id := requestIdRef s in
  let s := set_requestIdRef (id + 1) s in
  let s := set_promises (<[id := Unsettled]> (promises s)) s in
  let s := set_pending (<[id := {| promiseOf := id |}]> (pendingRequestsRef s)) s in
  let s := sendMessage (request_envelope id method params) s in
  let s := set_timers (timers s ++ [(id, now s + TIMEOUT_MS)]) s in
  (id, s).

(** [sendNotification(method, params)] *)
Definition sendNotification (method : string) (params : JsVal) (s : State) : State :=
  sendMessage (notification_envelope method params) s.

(** [theme === "light" ? "light" : "dark"] *)
Definition normalize_theme (theme : JsVal) : string :=
  if str_is "light" theme then "light" else "dark".

(** [applyTheme(theme)] *)
Definition applyTheme (theme : JsVal) : list Effect :=
  SetAttribute "data-theme" (normalize_theme theme) ::
  (if onThemeChange cfg then [ThemeChanged (normalize_theme theme)] else []).

(** The loop of [applyStyleVariables] over [Object.entries(variables)]. *)
Fixpoint setProperties (kvs : list (string * JsVal)) : list Effect :=
  match kvs with
  | [] => []
  | (key, value) :: rest =>
      (if truthy value then [SetProperty key value] else []) ++ setProperties rest
  end.

(** [applyStyleVariables(variables)] *)
Definition applyStyleVariables (variables : JsVal) : list Effect :=
  setProperties (entries variables).

(** What [callTool] does once the promise it awaits has settled: on
    fulfilment it calls [onToolResult] if registered and returns the
    result; on rejection the error propagates to its caller. *)
Definition callTool_resume (p : Z) (o : PromiseState) : list Effect :=
  match o with
  | Unsettled => []
  | Fulfilled result =>
      (if onToolResult cfg then [ToolResult result] else []) ++
      [CallToolFulfilled p result]
  | Rejected message => [CallToolRejected p message]
  end.

(** Promise settlement: only an unsettled promise changes state and runs
    its reaction; the hook's only awaiter is [callTool]. *)
Definition settle (p : Z) (o : PromiseState) (s : State) : State :=
  match promises s !! p with
  | Some Unsettled =>
      emit (callTool_resume p o) (set_promises (<[p := o]> (promises s)) s)
  | _ => s
  end.

(** [pending.resolve(result)] *)
Definition resolve (p : Z) (result : JsVal) (s : State) : State :=
  settle p (Fulfilled result) (emit [Resolve p result] s).

(** [reject(error)] for an [Error] whose message is the string
    [message] (see [new_Error]). *)
Definition reject (p : Z) (message : JsVal) (s : State) : State :=
  settle p (Rejected message) (emit [Reject p message] s).

(** [callTool(toolName, args)] up to its [await]. *)
Definition callTool (toolName : string) (args : JsVal) (s : State) : Z * State :=
  sendRequest "tools/call" (JObj [("name", JStr toolName); ("arguments", args)]) s.

(** The callback given to [setTimeout] by the request [id]; the message
    of [new Error("Request timeout")] is that string. *)
Definition timeout_callback (id : Z) (s : State) : State :=
  match pendingRequestsRef s !! id with
  | Some _ =>
      reject id (JStr "Request timeout")
        (set_pending (delete id (pendingRequestsRef s)) s)
  | None => s
  end.

(** [Map.prototype.get] and [delete] at an arbitrary key: the keys of the
    pending map are numbers, so only a number can hit. *)
Definition map_get (m : gmap Z PendingRecord) (key : JsVal) : option PendingRecord :=
  match key with JNum n => m !! n | _ => None end.

Definition map_delete (m : gmap Z PendingRecord) (key : JsVal) : gmap Z PendingRecord :=
  match key with JNum n => delete n m | _ => m end.

(** The two replies of the hook. *)
Definition handshake_result : JsVal :=
  JObj [("protocolVersion", JStr "2025-06-18");
        ("capabilities", JObj []);
        ("clientInfo", JObj [("name", JStr (name cfg)); ("version", JStr (version cfg))])].

Definition teardown_response (id : JsVal) : JsVal := response_envelope id (JObj []).

(** [handleTeardown()] up to its [await]: without a hook it runs to the
    end at once. *)
Definition handleTeardown (data : JsVal) (s : State) : State :=
  if onTeardown cfg then
    set_teardowns (teardowns s ++ [prop data "id"]) (emit [TeardownHook] s)
  else
    emit [PostMessage (teardown_response (prop data "id"));
          ConsoleLog "Teardown complete, response sent" JUndefined] s.

(** How the promise returned by [onTeardown()] settles. *)
Inductive HookOutcome : Type :=
| HookFulfilled
| HookRejected (error : JsVal).

(** [handleTeardown()] after its [await], for the request [id]. *)
Definition handleTeardown_resume (id : JsVal) (o : HookOutcome) : list Effect :=
  match o with
  | HookFulfilled =>
      [PostMessage (teardown_response id);
       ConsoleLog "Teardown complete, response sent" JUndefined]
  | HookRejected error =>
      [ConsoleError "Teardown error:" error;
       PostMessage (teardown_response id)]
  end.

(** The last statement of [handleMessage]:
    [if (data.method && !data.method.includes("tool")) console.log(...)].
    A truthy method that is neither a string nor an array has no
    [includes] to call. *)
Definition unhandled (data : JsVal) : list Effect :=
  match prop data "method" with
  | JStr m =>
      if truthy (JStr m) && negb (includes "tool" m)
      then [ConsoleLog "Unhandled message:" data] else []
  | JArr l =>
      if negb (existsb (str_is "tool") l)
      then [ConsoleLog "Unhandled message:" data] else []
  | m => if truthy m then [UncaughtTypeError] else []
  end.

(** The effects of the [ui/initialize] branch before the reply. *)
Definition apply_hostContext (hostContext : JsVal) : list Effect :=
  (if truthy (prop hostContext "theme")
   then applyTheme (prop hostContext "theme") else []) ++
  (if truthy (prop (prop hostContext "styles") "variables")
   then applyStyleVariables (prop (prop hostContext "styles") "variables") else []) ++
  (if truthy (prop hostContext "appState") && onAppState cfg
   then [AppState (prop hostContext "appState")] else []).

(** [handleMessage(event)] with [data = event.data]. *)
Definition handleMessage (data : JsVal) (s : State) : State :=
  if negb (truthy data) || negb (typeof_object data) then s
  else if defined (prop data "id") &&
          (defined (prop data "result") || defined (prop data "error")) then
    match map_get (pendingRequestsRef s) (prop data "id") with
    | Some pending =>
        let s := set_pending (map_delete (pendingRequestsRef s) (prop data "id")) s in
        if truthy (prop data "error") then
          let s := emit [ConsoleError "Error response from host:" data] s in
          match new_Error (js_or (prop (prop data "error") "message")
                                 (JStr "Unknown error")) with
          | Some message => reject (promiseOf pending) message s
          | None => emit [UncaughtTypeError] s
          end
        else
          resolve (promiseOf pending) (prop data "result") s
    | None => s
    end
  else if str_is "ui/initialize" (prop data "method") then
    let hostContext := prop (prop data "params") "hostContext" in
    let s := emit (ConsoleLog "Initializing:" data :: apply_hostContext hostContext) s in
    let s := emit [PostMessage (response_envelope (prop data "id") handshake_result)] s in
    let s := sendNotification "ui/notifications/initialized" (JObj []) s in
    set_isReady true (emit [SetIsReady true] s)
  else if str_is "ui/notifications/tool-input" (prop data "method") then
    emit (if onToolInput cfg
          then [ToolInput (js_or (prop (prop data "params") "arguments") (JObj []))]
          else []) s
  else if str_is "ui/notifications/tool-result" (prop data "method") then
    emit (if onToolResult cfg
          then [ToolResult (js_or (prop data "params") (JObj []))]
          else []) s
  else if str_is "ui/notifications/host-context-changed" (prop data "method") then
    emit (ConsoleLog "Host context changed:" data ::
          (if truthy (prop (prop data "params") "theme")
           then applyTheme (prop (prop data "params") "theme") else []) ++
          (if truthy (prop (prop (prop data "params") "styles") "variables")
           then applyStyleVariables (prop (prop (prop data "params") "styles") "variables")
           else [])) s
  else if str_is "ui/resource-teardown" (prop data "method") && defined (prop data "id") then
    handleTeardown data (emit [ConsoleLog "Resource teardown requested:" data] s)
  else emit (unhandled data) s.

(** ** The event loop *)

Inductive Event : Type :=
| Message (data : JsVal)                        (* a "message" event on window *)
| CallTool (toolName : string) (args : JsVal)   (* the application calls callTool *)
| SendNotification (method : string) (params : JsVal)
                                                (* the application calls sendNotification *)
| TimePasses (ms : Z)                           (* the clock advances *)
| TimerFires (id : Z)                           (* the timeout of request id runs *)
| HookSettles (k : nat) (o : HookOutcome).      (* the k-th awaited hook promise settles *)

(** Takes the armed timer of request [id] out of the list when it is due. *)
Fixpoint fire (id t : Z) (ts : list (Z * Z)) : option (list (Z * Z)) :=
  match ts with
  | [] => None
  | (i, d) :: rest =>
      if (i =? id) && (d <=? t) then Some rest
      else match fire id t rest with
           | Some rest' => Some ((i, d) :: rest')
           | None => None
           end
  end.

(** One task of the event loop; [None] when the event cannot happen in
    this state (a timer that is not armed or not due, a hook that nobody
    awaits, time running backwards). *)
Definition step (s : State) (e : Event) : option State :=
  match e with
  | Message data => Some (handleMessage data s)
  | CallTool toolName args => Some (snd (callTool toolName args s))
  | SendNotification method params => Some (sendNotification method params s)
  | TimePasses ms => if 0 <=? ms then Some (set_now (now s + ms) s) else None
  | TimerFires id =>
      match fire id (now s) (timers s) with
      | Some ts => Some (timeout_callback id (set_timers ts s))
      | None => None
      end
  | HookSettles k o =>
      match teardowns s !! k with
      | Some id =>
          Some (emit (handleTeardown_resume id o)
                  (set_teardowns (delete k (teardowns s)) s))
      | None => None
      end
  end.

Fixpoint run (s : State) (es : list Event) : option State :=
  match es with
  | [] => Some s
  | e :: rest =>
      match step s e with
      | Some s' => run s' rest
      | None => None
      end
  end.

End Hook.

(** ** Reading traces *)

Fixpoint count (f : Effect → bool) (t : list Effect) : nat :=
  match t with
  | [] => 0%nat
  | e :: rest => ((if f e then 1 else 0) + count f rest)%nat
  end.

(** A call of one of the two resolvers of promise [id]. *)
Definition settles (id : Z) (e : Effect) : bool :=
  match e with
  | Resolve p _ | Reject p _ => p =? id
  | _ => false
  end.

Definition is_settle (e : Effect) : bool :=
  match e with
  | Resolve _ _ | Reject _ _ => true
  | _ => false
  end.

(** Effects among which no resolver is called. *)
Definition quiet (es : list Effect) : Prop := Forall (λ e, is_settle e = false) es.

(** The messages posted to the host, oldest first. *)
Fixpoint posts (t : list Effect) : list JsVal :=
  match t with
  | [] => []
  | PostMessage m :: rest => m :: posts rest
  | _ :: rest => posts rest
  end.

(** The document attributes written. *)
Fixpoint attributes (t : list Effect) : list (string * string) :=
  match t with
  | [] => []
  | SetAttribute a v :: rest => (a, v) :: attributes rest
  | _ :: rest => attributes rest
  end.

(** The style properties written. *)
Fixpoint properties (t : list Effect) : list (string * JsVal) :=
  match t with
  | [] => []
  | SetProperty k v :: rest => (k, v) :: properties rest
  | _ :: rest => properties rest
  end.

(** The payloads handed to [onToolResult]. *)
Fixpoint toolResults (t : list Effect) : list JsVal :=
  match t with
  | [] => []
  | ToolResult r :: rest => r :: toolResults rest
  | _ :: rest => toolResults rest
  end.


(** The shape test at the top of [handleMessage]:
    [data.id !== undefined && (data.result !== undefined || data.error !== undefined)]. *)
Definition is_response (data : JsVal) : bool :=
  defined (prop data "id") &&
  (defined (prop data "result") || defined (prop data "error")).

(** A response whose id is the number [id]. *)
Definition response_for (id : Z) (data : JsVal) : bool :=
  is_response data &&
  match prop data "id" with JNum n => n =? id | _ => false end.

(** The events that can settle request [id]: a response carrying its id,
    or its timer. *)
Definition answers (id : Z) (e : Event) : bool :=
  match e with
  | Message data => response_for id data
  | TimerFires i => i =? id
  | _ => false
  end.

(** The deadlines of the armed timers of request [id]. *)
Fixpoint deadlines (id : Z) (ts : list (Z * Z)) : list Z :=
  match ts with
  | [] => []
  | (i, d) :: rest => if i =? id then d :: deadlines id rest else deadlines id rest
  end.

(** States the hook can be in: those a run of the event loop reaches from
    the state of the first render. *)
Definition reachable (cfg : Config) (s : State) : Prop :=
  ∃ es, run cfg initial es = Some s.

(** What holds of every reachable state. *)
Record Inv (s : State) : Prop := {
  inv_pending : ∀ id r, pendingRequestsRef s !! id = Some r →
      promiseOf r = id ∧ promises s !! id = Some Unsettled ∧
      count (settles id) (trace s) = 0%nat ∧ id < requestIdRef s;
  inv_once : ∀ id, (count (settles id) (trace s) ≤ 1)%nat;
  inv_fresh : ∀ id, requestIdRef s ≤ id →
      promises s !! id = None ∧ count (settles id) (trace s) = 0%nat;
  inv_timers : ∀ i d, (i, d) ∈ timers s → i < requestIdRef s
}.


(** ** Sample traffic *)

(** The configuration the Todo application passes to the hook. *)
Definition app_cfg : Config :=
  {| name := "Todo List"; version := "1.0.0"; onToolInput := false;
     onToolResult := true; onThemeChange := false; onTeardown := false;
     onAppState := false |}.

(** A configuration with every callback registered. *)
Definition full_cfg : Config :=
  {| name := "Todo List"; version := "1.0.0"; onToolInput := true;
     onToolResult := true; onThemeChange := true; onTeardown := true;
     onAppState := true |}.

Definition milk : JsVal := JObj [("text", JStr "milk")].

Definition todos : JsVal :=
  JObj [("structuredContent",
         JObj [("todos", JArr [JObj [("id", JStr "todo_1"); ("text", JStr "milk")]])])].

(** Messages as the host sends them. *)
Definition reply (id : JsVal) (result : JsVal) : JsVal :=
  JObj [("jsonrpc", JStr "2.0"); ("id", id); ("result", result)].

Definition error_reply (id : JsVal) (error : JsVal) : JsVal :=
  JObj [("jsonrpc", JStr "2.0"); ("id", id); ("error", error)].

Definition initialize_request (id : JsVal) (hostContext : JsVal) : JsVal :=
  JObj [("jsonrpc", JStr "2.0"); ("id", id); ("method", JStr "ui/initialize");
        ("params", JObj [("hostContext", hostContext)])].

Definition tool_input_notification (args : JsVal) : JsVal :=
  JObj [("jsonrpc", JStr "2.0"); ("method", JStr "ui/notifications/tool-input");
        ("params", JObj [("arguments", args)])].

Definition tool_result_notification (params : JsVal) : JsVal :=
  JObj [("jsonrpc", JStr "2.0"); ("method", JStr "ui/notifications/tool-result");
        ("params", params)].

Definition context_changed (params : JsVal) : JsVal :=
  JObj [("jsonrpc", JStr "2.0");
        ("method", JStr "ui/notifications/host-context-changed");
        ("params", params)].

Definition teardown_request (id : JsVal) : JsVal :=
  JObj [("jsonrpc", JStr "2.0"); ("id", id); ("method", JStr "ui/resource-teardown")].

Definition light_context : JsVal :=
  JObj [("theme", JStr "light");
        ("styles", JObj [("variables",
           JObj [("--color-bg", JStr "#ffffff"); ("--color-muted", JStr "")])])].


(** Events that leave the [k]-th awaited teardown hook where it is. *)
Definition spares (k : nat) (e : Event) : bool :=
  match e with
  | HookSettles j _ => (k <? j)%nat
  | _ => true
  end.

(** ** Further readings of a trace *)

(** The id of a posted envelope when it is a [tools/call] request, that
    is when it has that method and an id (a notification has none). *)
Definition request_id_of (m : JsVal) : option JsVal :=
  if str_is "tools/call" (prop m "method") && defined (prop m "id")
  then Some (prop m "id") else None.

(** The ids of the [tools/call] requests posted, oldest first. *)
Definition request_ids (t : list Effect) : list JsVal :=
  omap request_id_of (posts t).

(** The themes handed to [onThemeChange]. *)
Fixpoint themeChanges (t : list Effect) : list string :=
  match t with
  | [] => []
  | ThemeChanged theme :: rest => theme :: themeChanges rest
  | _ :: rest => themeChanges rest
  end.

(** The values handed to [onAppState]. *)
Fixpoint appStates (t : list Effect) : list JsVal :=
  match t with
  | [] => []
  | AppState v :: rest => v :: appStates rest
  | _ :: rest => appStates rest
  end.

(** The [onTeardown] calls. *)
Definition is_TeardownHook (e : Effect) : bool :=
  match e with TeardownHook => true | _ => false end.

(** The one-way message that ends the handshake. *)
Definition initialized_notification : JsVal :=
  notification_envelope "ui/notifications/initialized" (JObj []).

(** The five methods [handleMessage] has a branch for. *)
Definition handled_methods : list string :=
  ["ui/initialize"; "ui/notifications/tool-input"; "ui/notifications/tool-result";
   "ui/notifications/host-context-changed"; "ui/resource-teardown"].

(** What every reachable state keeps about timers: a pending request has
    exactly one armed timer, due within the timeout from now, and no
    request ever has two. *)
Record TimerInv (s : State) : Prop := {
  ti_pending : ∀ id r, pendingRequestsRef s !! id = Some r →
      ∃ d, deadlines id (timers s) = [d] ∧ d ≤ now s + TIMEOUT_MS;
  ti_once : ∀ id, (length (deadlines id (timers s)) ≤ 1)%nat
}.

(** An error response to request [id] on which [new Error] throws: its
    error is truthy and the message has no string conversion. *)
Definition unconvertible_error (id : Z) (data : JsVal) : Prop :=
  prop data "id" = JNum id ∧
  truthy (prop data "error") = true ∧
  to_string (js_or (prop (prop data "error") "message") (JStr "Unknown error")) = None.

(** The two ways a request can have left the pending map: settled, in
    the trace and in its promise; or dropped by an error response on
    which [new Error] threw after the record had been deleted, its
    promise unsettled for good. *)
Definition settled_once (s : State) (id : Z) : Prop :=
  count (settles id) (trace s) = 1%nat ∧
  ∃ o, promises s !! id = Some o ∧ o ≠ Unsettled.

Definition dropped (s : State) (id : Z) : Prop :=
  count (settles id) (trace s) = 0%nat ∧
  promises s !! id = Some Unsettled ∧
  ∃ data, unconvertible_error id data ∧
          ConsoleError "Error response from host:" data ∈ trace s.

(** What every reachable state keeps about allocated ids: one that is no
    longer pending has been settled or dropped. *)
Record Conserved (s : State) : Prop := {
  cons_first : 1 ≤ requestIdRef s;
  cons_settled : ∀ id, 1 ≤ id < requestIdRef s →
      pendingRequestsRef s !! id = None →
      settled_once s id ∨ dropped s id
}.

(** The effects of [handleMessage] on a message that is not a response,
    branch by branch; they do not depend on the state (proved below as
    [handleMessage_effects]). *)
Definition message_effects (cfg : Config) (data : JsVal) : list Effect :=
  if str_is "ui/initialize" (prop data "method") then
    ConsoleLog "Initializing:" data ::
    apply_hostContext cfg (prop (prop data "params") "hostContext") ++
    [PostMessage (response_envelope (prop data "id") (handshake_result cfg));
     PostMessage initialized_notification;
     SetIsReady true]
  else if str_is "ui/notifications/tool-input" (prop data "method") then
    if onToolInput cfg
    then [ToolInput (js_or (prop (prop data "params") "arguments") (JObj []))]
    else []
  else if str_is "ui/notifications/tool-result" (prop data "method") then
    if onToolResult cfg
    then [ToolResult (js_or (prop data "params") (JObj []))]
    else []
  else if str_is "ui/notifications/host-context-changed" (prop data "method") then
    ConsoleLog "Host context changed:" data ::
    (if truthy (prop (prop data "params") "theme")
     then applyTheme cfg (prop (prop data "params") "theme") else []) ++
    (if truthy (prop (prop (prop data "params") "styles") "variables")
     then applyStyleVariables (prop (prop (prop data "params") "styles") "variables")
     else [])
  else if str_is "ui/resource-teardown" (prop data "method") && defined (prop data "id") then
    ConsoleLog "Resource teardown requested:" data ::
    (if onTeardown cfg then [TeardownHook]
     else [PostMessage (teardown_response (prop data "id"));
           ConsoleLog "Teardown complete, response sent" JUndefined])
  else unhandled data.

(** The messages [handleMessage] posts for an inbound message (proved
    below as [handleMessage_posts]). *)
Definition replies (cfg : Config) (data : JsVal) : list JsVal :=
  if is_response data then []
  else if str_is "ui/initialize" (prop data "method") then
    [response_envelope (prop data "id") (handshake_result cfg);
     initialized_notification]
  else if str_is "ui/resource-teardown" (prop data "method") &&
          defined (prop data "id") && negb (onTeardown cfg)
  then [teardown_response (prop data "id")]
  else [].

(** The messages one task of the event loop posts. *)
Definition step_sends (cfg : Config) (s : State) (e : Event) : list JsVal :=
  match e with
  | Message data => replies cfg data
  | CallTool toolName args =>
      [request_envelope (requestIdRef s) "tools/call"
         (JObj [("name", JStr toolName); ("arguments", args)])]
  | SendNotification method params => [notification_envelope method params]
  | TimePasses _ | TimerFires _ => []
  | HookSettles k _ =>
      match teardowns s !! k with
      | Some id => [teardown_response id]
      | None => []
      end
  end.

(** The four kinds of envelope the hook can post: a [tools/call]
    request, the handshake response, a notification, and the
    acknowledgement of a teardown. *)
Definition sendable (cfg : Config) (m : JsVal) : Prop :=
  (∃ id toolName args,
     m = JObj [("jsonrpc", JStr "2.0"); ("id", JNum id);
               ("method", JStr "tools/call");
               ("params", JObj [("name", JStr toolName); ("arguments", args)])]) ∨
  (∃ id, m = JObj [("jsonrpc", JStr "2.0"); ("id", id);
                   ("result", handshake_result cfg)]) ∨
  (∃ method params,
     m = JObj [("jsonrpc", JStr "2.0"); ("method", JStr method); ("params", params)]) ∨
  (∃ id, m = JObj [("jsonrpc", JStr "2.0"); ("id", id); ("result", JObj [])]).

(** A posted handshake response. *)
Definition is_handshake_response (cfg : Config) (m : JsVal) : Prop :=
  ∃ id, m = JObj [("jsonrpc", JStr "2.0"); ("id", id); ("result", handshake_result cfg)].

(** The only attribute the hook writes, with its two values. *)
Definition theme_attribute (a : string * string) : Prop :=
  a.1 = "data-theme" ∧ (a.2 = "light" ∨ a.2 = "dark").

(** Effects in which every theme written is a theme attribute and is
    passed on to [onThemeChange] when that is registered. *)
Definition themed (cfg : Config) (es : list Effect) : Prop :=
  Forall theme_attribute (attributes es) ∧
  themeChanges es = if onThemeChange cfg then snd <$> attributes es else [].

(** ** The todo server (src/server.ts) *)

(** [interface Todo] *)
Record Todo : Type := {
  todo_id : string;
  todo_text : string;
  completed : bool;
  createdAt : string
}.

(** The in-memory store [todos : Map<string, Todo>]: the entries in
    insertion order, which is the order [todos.values()] yields. *)
Fixpoint todos_get (key : string) (m : list (string * Todo)) : option Todo :=
  match m with
  | [] => None
  | (k, v) :: rest => if String.eqb k key then Some v else todos_get key rest
  end.

(** [todos.set(key, v)]: an existing key keeps its place, a new one goes
    to the end. *)
Fixpoint todos_set (key : string) (v : Todo) (m : list (string * Todo))
    : list (string * Todo) :=
  match m with
  | [] => [(key, v)]
  | (k, w) :: rest =>
      if String.eqb k key then (k, v) :: rest else (k, w) :: todos_set key v rest
  end.

(** [todos.delete(key)] *)
Fixpoint todos_delete (key : string) (m : list (string * Todo)) : list (string * Todo) :=
  match m with
  | [] => []
  | (k, w) :: rest =>
      if String.eqb k key then rest else (k, w) :: todos_delete key rest
  end.

(** [Array.from(todos.values())] *)
Definition todos_values (m : list (string * Todo)) : list Todo := snd <$> m.

(** A todo as it appears in a result object. *)
Definition todo_js (t : Todo) : JsVal :=
  JObj [("id", JStr (todo_id t)); ("text", JStr (todo_text t));
        ("completed", JBool (completed t)); ("createdAt", JStr (createdAt t))].

(** [allTodos.filter((t) => !t.completed).length] *)
Definition openCount (allTodos : list Todo) : nat :=
  length (List.filter (λ t, negb (completed t)) allTodos).

(** [`Todos ${openCount}`] *)
Definition title (allTodos : list Todo) : string :=
  String.append "Todos " (index_key (openCount allTodos)).

(** The representation invariant of the store: keys are unique, as in any
    [Map], and every todo is filed under its own id. *)
Definition store_ok (m : list (string * Todo)) : Prop :=
  NoDup (fst <$> m) ∧ Forall (λ kv, todo_id (snd kv) = fst kv) m.

Section Server.

(** [JSON.stringify], a built-in the handlers only pass values to. *)
Variable JSON_stringify : JsVal → string.

(** [content: [{ type: "text", text: JSON.stringify(json) }]] *)
Definition text_content (json : JsVal) : JsVal :=
  JArr [JObj [("type", JStr "text"); ("text", JStr (JSON_stringify json))]].

(** The handler of [todo_add]; [newId] is what [generateId()] returns and
    [timestamp] what [new Date().toISOString()] returns. *)
Definition todo_add (newId timestamp text : string) (todos : list (string * Todo))
    : list (string * Todo) * JsVal :=
  let todo := {| todo_id := newId; todo_text := text;
                 completed := false; createdAt := timestamp |} in
  let todos := todos_set (todo_id todo) todo todos in
  let allTodos := todos_values todos in
  (todos,
   JObj [("content",
          text_content (JObj [("success", JBool true); ("todo", todo_js todo);
                              ("totalCount", JNum (Z.of_nat (length allTodos)))]));
         ("structuredContent",
          JObj [("success", JBool true); ("action", JStr "added");
                ("todo", todo_js todo);
                ("todos", JArr (todo_js <$> allTodos));
                ("title", JStr (title allTodos));
                ("inlineTitle", JStr "Added todo")])]).

(** The handler of [todo_list]. *)
Definition todo_list (todos : list (string * Todo)) : list (string * Todo) * JsVal :=
  let allTodos := todos_values todos in
  (todos,
   JObj [("content",
          text_content (JObj [("success", JBool true);
                              ("count", JNum (Z.of_nat (length allTodos)));
                              ("todos", JArr (todo_js <$> allTodos))]));
         ("structuredContent",
          JObj [("success", JBool true);
                ("todos", JArr (todo_js <$> allTodos));
                ("title", JStr (title allTodos))])]).

(** The result both [todo_toggle] and [todo_remove] return for an id that
    is not in the store. *)
Definition not_found (todos : list (string * Todo)) : JsVal :=
  let allTodos := todos_values todos in
  JObj [("content",
         text_content (JObj [("success", JBool false);
                             ("error", JStr "Todo not found")]));
        ("structuredContent",
         JObj [("success", JBool false); ("error", JStr "Todo not found");
               ("todos", JArr (todo_js <$> allTodos));
               ("title", JStr (title allTodos));
               ("inlineTitle", JStr "Todo not found")])].

(** The handler of [todo_toggle]. *)
Definition todo_toggle (id : string) (todos : list (string * Todo))
    : list (string * Todo) * JsVal :=
  match todos_get id todos with
  | None => (todos, not_found todos)
  | Some found =>
      let todo := {| todo_id := todo_id found; todo_text := todo_text found;
                     completed := negb (completed found);
                     createdAt := createdAt found |} in
      let todos := todos_set id todo todos in
      let allTodos := todos_values todos in
      (todos,
       JObj [("content",
              text_content (JObj [("success", JBool true); ("todo", todo_js todo)]));
             ("structuredContent",
              JObj [("success", JBool true); ("action", JStr "toggled");
                    ("todo", todo_js todo);
                    ("todos", JArr (todo_js <$> allTodos));
                    ("title", JStr (title allTodos));
                    ("inlineTitle",
                     JStr (if completed todo then "Completed todo"
                           else "Uncompleted todo"))])])
  end.

(** The handler of [todo_remove]. *)
Definition todo_remove (id : string) (todos : list (string * Todo))
    : list (string * Todo) * JsVal :=
  match todos_get id todos with
  | None => (todos, not_found todos)
  | Some _ =>
      let todos := todos_delete id todos in
      let allTodos := todos_values todos in
      (todos,
       JObj [("content",
              text_content (JObj [("success", JBool true); ("removedId", JStr id)]));
             ("structuredContent",
              JObj [("success", JBool true); ("action", JStr "removed");
                    ("removedId", JStr id);
                    ("todos", JArr (todo_js <$> allTodos));
                    ("title", JStr (title allTodos));
                    ("inlineTitle", JStr "Removed todo")])])
  end.

(** A validated tool call, with what the clock and the id generator give
    to [todo_add]. *)
Inductive ToolCall : Type :=
| TodoAdd (newId timestamp text : string)
| TodoList
| TodoToggle (id : string)
| TodoRemove (id : string).

(** The registered handler for a call. *)
Definition serve (call : ToolCall) (todos : list (string * Todo))
    : list (string * Todo) * JsVal :=
  match call with
  | TodoAdd newId timestamp text => todo_add newId timestamp text todos
  | TodoList => todo_list todos
  | TodoToggle id => todo_toggle id todos
  | TodoRemove id => todo_remove id todos
  end.

End Server.

(** ** The application (src/ui/App.tsx) *)

(** [handleToolResult(result)] as a function of the [todos] state;
    [None] when reading [result.structuredContent] throws. *)
Definition handleToolResult (result : JsVal) (todos : JsVal) : option JsVal :=
  match result with
  | JUndefined | JNull => None
  | _ =>
      Some (if truthy (prop (prop result "structuredContent") "todos")
            then prop (prop result "structuredContent") "todos"
            else todos)
  end.

(** [undefined] and [null], on which a property read throws. *)
Definition nullish (v : JsVal) : bool :=
  match v with JUndefined | JNull => true | _ => false end.

(** [todos.filter((t) => t.completed).length] *)
Definition completedCount (todos : list JsVal) : nat :=
  length (List.filter (λ t, truthy (prop t "completed")) todos).

(** The text of the count in the header; [None] when rendering throws
    ([todos] is not an array, or holds [null] or [undefined]). *)
Definition header_count (todos : JsVal) : option string :=
  match todos with
  | JArr l =>
      if existsb nullish l then None
      else Some (if Nat.eqb (length l) 0 then "No items"
                 else String.append (index_key (completedCount l))
                        (String.append "/"
                           (String.append (index_key (length l)) " done")))
  | _ => None
  end.

(** The body of the effect that fetches the todos once the host is
    ready; [hasFetched] is the ref [hasFetchedInitialTodos.current]. *)
Definition fetchInitialTodos (isReady hasFetched : bool) : bool * list Event :=
  if isReady && negb hasFetched
  then (true, [CallTool "todo_list" (JObj [])])
  else (hasFetched, []).

(** The effect run once per render, with the readiness of each render. *)
Fixpoint effect_runs (renders : list bool) (hasFetched : bool) : list Event :=
  match renders with
  | [] => []
  | isReady :: rest =>
      snd (fetchInitialTodos isReady hasFetched) ++
      effect_runs rest (fst (fetchInitialTodos isReady hasFetched))
  end.

(** Sample stores. *)
Definition buy_milk : Todo :=
  {| todo_id := "todo_1"; todo_text := "milk"; completed := false;
     createdAt := "2026-01-01T00:00:00.000Z" |}.

Definition call_mum : Todo :=
  {| todo_id := "todo_2"; todo_text := "call mum"; completed := true;
     createdAt := "2026-01-02T00:00:00.000Z" |}.

Definition two_todos : list (string * Todo) :=
  [("todo_1", buy_milk); ("todo_2", call_mum)].

(** A stand-in for [JSON.stringify] in examples that do not read the
    text content. *)
Definition no_text (json : JsVal) : string := "".

(** ** Lemmas on traces *)

Lemma count_app f t1 t2 : count f (t1 ++ t2) = (count f t1 + count f t2)%nat.
Proof. induction t1 as [|e t1 IH]; simpl; [done | rewrite IH; lia]. Qed.

Lemma posts_app t1 t2 : posts (t1 ++ t2) = posts t1 ++ posts t2.
Proof.
  induction t1 as [|e t1 IH]; simpl; [done|].
  destruct e; simpl; by rewrite ?IH.
Qed.

Lemma attributes_app t1 t2 : attributes (t1 ++ t2) = attributes t1 ++ attributes t2.
Proof.
  induction t1 as [|e t1 IH]; simpl; [done|].
  destruct e; simpl; by rewrite ?IH.
Qed.


Lemma settles_is_settle id e : is_settle e = false → settles id e = false.
Proof. by destruct e. Qed.

Lemma count_quiet id es : quiet es → count (settles id) es = 0%nat.
Proof.
  induction 1 as [|e es He _ IH]; simpl; [done|].
  by rewrite (settles_is_settle id e He), IH.
Qed.

Lemma quiet_app es1 es2 : quiet es1 → quiet es2 → quiet (es1 ++ es2).
Proof. apply Forall_app_2. Qed.

Lemma quiet_setProperties kvs : quiet (setProperties kvs).
Proof.
  induction kvs as [|[k v] kvs IH]; simpl; [constructor|].
  destruct (truthy v); simpl; [by constructor | done].
Qed.

Lemma posts_setProperties kvs : posts (setProperties kvs) = [].
Proof.
  induction kvs as [|[k v] kvs IH]; simpl; [done|].
  by destruct (truthy v).
Qed.

Lemma attributes_setProperties kvs : attributes (setProperties kvs) = [].
Proof.
  induction kvs as [|[k v] kvs IH]; simpl; [done|].
  by destruct (truthy v).
Qed.



Section TraceFacts.

Variable cfg : Config.

Lemma quiet_applyTheme theme : quiet (applyTheme cfg theme).
Proof. unfold applyTheme. destruct (onThemeChange cfg); repeat constructor. Qed.

Lemma quiet_applyStyleVariables v : quiet (applyStyleVariables v).
Proof. apply quiet_setProperties. Qed.

Lemma quiet_apply_hostContext hc : quiet (apply_hostContext cfg hc).
Proof.
  unfold apply_hostContext.
  repeat apply quiet_app; repeat case_match;
    auto using quiet_applyTheme, quiet_applyStyleVariables; repeat constructor.
Qed.

Lemma quiet_unhandled data : quiet (unhandled data).
Proof. unfold unhandled. repeat case_match; repeat constructor. Qed.

Lemma quiet_callTool_resume p o : quiet (callTool_resume cfg p o).
Proof.
  destruct o; simpl; [constructor | | repeat constructor].
  destruct (onToolResult cfg); repeat constructor.
Qed.

Lemma quiet_handleTeardown_resume id o : quiet (handleTeardown_resume id o).
Proof. destruct o; repeat constructor. Qed.

End TraceFacts.

(** ** Shape of [handleMessage] *)

Section Dispatch.

Variable cfg : Config.

Lemma is_response_obj data : is_response data = true → ∃ fs, data = JObj fs.
Proof. destruct data; try discriminate. eauto. Qed.

Lemma handleMessage_response data s :
  is_response data = true →
  handleMessage cfg data s =
    match map_get (pendingRequestsRef s) (prop data "id") with
    | Some pending =>
        let s := set_pending (map_delete (pendingRequestsRef s) (prop data "id")) s in
        if truthy (prop data "error") then
          let s := emit [ConsoleError "Error response from host:" data] s in
          match new_Error (js_or (prop (prop data "error") "message")
                                 (JStr "Unknown error")) with
          | Some message => reject cfg (promiseOf pending) message s
          | None => emit [UncaughtTypeError] s
          end
        else
          resolve cfg (promiseOf pending) (prop data "result") s
    | None => s
    end.
Proof.
  intros H. destruct (is_response_obj _ H) as [fs ->].
  unfold handleMessage. unfold is_response in H. by rewrite H.
Qed.

(** A message that is not a response leaves the correlator alone. *)
Lemma handleMessage_frame data s :
  is_response data = false →
  requestIdRef (handleMessage cfg data s) = requestIdRef s ∧
  pendingRequestsRef (handleMessage cfg data s) = pendingRequestsRef s ∧
  promises (handleMessage cfg data s) = promises s ∧
  timers (handleMessage cfg data s) = timers s ∧
  now (handleMessage cfg data s) = now s ∧
  ∃ es, trace (handleMessage cfg data s) = trace s ++ es ∧ quiet es.
Proof.
  intros H. unfold handleMessage. unfold is_response in H. rewrite H.
  unfold handleTeardown, sendNotification, sendMessage.
  repeat case_match; simpl; split_and!; try done;
    rewrite <- ?app_assoc;
    (eexists; split; [first [reflexivity | symmetry; apply app_nil_r] |]);
    simpl;
    repeat first
      [ apply Forall_nil_2
      | apply Forall_cons_2; [done|]
      | apply quiet_app
      | apply quiet_applyTheme
      | apply quiet_applyStyleVariables
      | apply quiet_apply_hostContext
      | apply quiet_unhandled
      | case_match ].
Qed.

(** The notification branches. *)
Lemma handleMessage_tool_input data s :
  is_response data = false →
  str_is "ui/notifications/tool-input" (prop data "method") = true →
  handleMessage cfg data s =
    emit (if onToolInput cfg
          then [ToolInput (js_or (prop (prop data "params") "arguments") (JObj []))]
          else []) s.
Proof.
  intros Hresp Hm. unfold is_response in Hresp.
  destruct data as [| | | | | |fs]; try discriminate.
  unfold handleMessage. simpl in *. rewrite Hresp.
  destruct (field "method" fs) as [| | | |m| |]; try discriminate.
  simpl in Hm. by apply String.eqb_eq in Hm as ->.
Qed.

Lemma handleMessage_tool_result data s :
  is_response data = false →
  str_is "ui/notifications/tool-result" (prop data "method") = true →
  handleMessage cfg data s =
    emit (if onToolResult cfg
          then [ToolResult (js_or (prop data "params") (JObj []))]
          else []) s.
Proof.
  intros Hresp Hm. unfold is_response in Hresp.
  destruct data as [| | | | | |fs]; try discriminate.
  unfold handleMessage. simpl in *. rewrite Hresp.
  destruct (field "method" fs) as [| | | |m| |]; try discriminate.
  simpl in Hm. by apply String.eqb_eq in Hm as ->.
Qed.

Lemma handleMessage_context_changed data s :
  is_response data = false →
  str_is "ui/notifications/host-context-changed" (prop data "method") = true →
  handleMessage cfg data s =
    emit (ConsoleLog "Host context changed:" data ::
          (if truthy (prop (prop data "params") "theme")
           then applyTheme cfg (prop (prop data "params") "theme") else []) ++
          (if truthy (prop (prop (prop data "params") "styles") "variables")
           then applyStyleVariables (prop (prop (prop data "params") "styles") "variables")
           else [])) s.
Proof.
  intros Hresp Hm. unfold is_response in Hresp.
  destruct data as [| | | | | |fs]; try discriminate.
  unfold handleMessage. simpl in *. rewrite Hresp.
  destruct (field "method" fs) as [| | | |m| |]; try discriminate.
  simpl in Hm. by apply String.eqb_eq in Hm as ->.
Qed.

(** The [ui/initialize] branch. *)
Lemma handleMessage_initialize data s :
  is_response data = false →
  str_is "ui/initialize" (prop data "method") = true →
  handleMessage cfg data s =
    set_isReady true
      (emit (ConsoleLog "Initializing:" data ::
             apply_hostContext cfg (prop (prop data "params") "hostContext") ++
             [PostMessage (response_envelope (prop data "id") (handshake_result cfg));
              PostMessage (notification_envelope "ui/notifications/initialized" (JObj []));
              SetIsReady true]) s).
Proof.
  intros Hresp Hm. unfold is_response in Hresp.
  destruct data as [| | | | | |fs]; try discriminate.
  unfold handleMessage. simpl in *. rewrite Hresp, Hm.
  unfold sendNotification, sendMessage, set_isReady, emit.
  cbn [trace isReady requestIdRef pendingRequestsRef promises timers now teardowns].
  f_equal. by rewrite <- !app_assoc.
Qed.

(** The [ui/resource-teardown] branch. *)
Lemma handleMessage_teardown data s :
  is_response data = false →
  str_is "ui/resource-teardown" (prop data "method") = true →
  defined (prop data "id") = true →
  handleMessage cfg data s =
    handleTeardown cfg data (emit [ConsoleLog "Resource teardown requested:" data] s).
Proof.
  intros Hresp Hm Hid. unfold is_response in Hresp.
  destruct data as [| | | | | |fs]; try discriminate.
  unfold handleMessage. simpl in *. rewrite Hresp, Hid.
  destruct (field "method" fs) as [| | | |m| |]; try discriminate.
  simpl in Hm. by apply String.eqb_eq in Hm as ->.
Qed.

End Dispatch.

(** ** The invariant of the correlator *)

Section Invariant.

Variable cfg : Config.

Lemma Inv_initial : Inv initial.
Proof.
  split; simpl.
  - intros id r H. by rewrite lookup_empty in H.
  - intros id. lia.
  - intros id _. by rewrite lookup_empty.
  - intros i d H. by apply elem_of_nil in H.
Qed.

(** Steps that touch neither the counter, the map nor the promises. *)
Lemma Inv_frame s s' es :
  Inv s →
  requestIdRef s' = requestIdRef s →
  pendingRequestsRef s' = pendingRequestsRef s →
  promises s' = promises s →
  (∀ x, x ∈ timers s' → x ∈ timers s) →
  trace s' = trace s ++ es → quiet es →
  Inv s'.
Proof.
  intros [Hp Ho Hf Ht] Hid Hpend Hprom Htim Htr Hq.
  split; rewrite ?Hid, ?Hpend, ?Hprom, ?Htr.
  - intros id r H. rewrite count_app, (count_quiet id es Hq).
    destruct (Hp id r H) as (? & ? & -> & ?). done.
  - intros id. rewrite count_app, (count_quiet id es Hq).
    specialize (Ho id). lia.
  - intros id H. rewrite count_app, (count_quiet id es Hq).
    destruct (Hf id H) as [? ->]. done.
  - intros i d H. rewrite <- Hid. rewrite Hid. eauto.
Qed.

Lemma Inv_sendRequest method params s :
  Inv s → Inv (snd (sendRequest method params s)).
Proof.
  intros [Hp Ho Hf Ht]. split; simpl.
  - intros id r H. rewrite count_app. simpl.
    destruct (decide (requestIdRef s = id)) as [<-|Hne].
    + rewrite lookup_insert_eq in H. injection H as <-.
      rewrite lookup_insert_eq. simpl.
      destruct (Hf (requestIdRef s)) as [_ ->]; [lia|].
      split_and!; [done | done | done | lia].
    + rewrite lookup_insert_ne in H by done.
      rewrite lookup_insert_ne by done.
      destruct (Hp id r H) as (? & ? & -> & ?).
      split_and!; [done | done | done | lia].
  - intros id. rewrite count_app. simpl. specialize (Ho id). lia.
  - intros id H. rewrite count_app. simpl.
    rewrite lookup_insert_ne by lia.
    destruct (Hf id) as [-> ->]; [lia|]. done.
  - intros i d H. apply elem_of_app in H as [H|H].
    + specialize (Ht i d H). lia.
    + apply list_elem_of_singleton in H. injection H as -> _. lia.
Qed.

(** Settling an unsettled promise runs the continuation of [callTool]. *)
Lemma settle_spec s0 id e o :
  promises s0 !! id = Some Unsettled →
  settle cfg id o (emit [e] s0) =
    emit (e :: callTool_resume cfg id o)
         (set_promises (<[id := o]> (promises s0)) s0).
Proof.
  intros H. unfold settle. simpl. rewrite H.
  unfold emit, set_promises. simpl. f_equal. by rewrite <- app_assoc.
Qed.

Lemma Inv_settled s0 id e o :
  Inv s0 →
  pendingRequestsRef s0 !! id = None →
  count (settles id) (trace s0) = 0%nat →
  id < requestIdRef s0 →
  settles id e = true →
  (∀ j, j ≠ id → settles j e = false) →
  Inv (emit (e :: callTool_resume cfg id o)
         (set_promises (<[id := o]> (promises s0)) s0)).
Proof.
  intros [Hp Ho Hf Ht] Hnone Hzero Hlt He Hother.
  pose proof (quiet_callTool_resume cfg id o) as Hq.
  split; simpl.
  - intros j r H. rewrite count_app. simpl.
    assert (j ≠ id) as Hne by (intros ->; congruence).
    rewrite (Hother j Hne), (count_quiet j _ Hq).
    rewrite lookup_insert_ne by done.
    destruct (Hp j r H) as (? & ? & -> & ?). done.
  - intros j. rewrite count_app. simpl. rewrite (count_quiet j _ Hq).
    destruct (decide (j = id)) as [->|Hne].
    + rewrite Hzero, He. lia.
    + rewrite (Hother j Hne). specialize (Ho j). lia.
  - intros j H. rewrite count_app. simpl.
    assert (j ≠ id) as Hne by lia.
    rewrite (Hother j Hne), (count_quiet j _ Hq).
    rewrite lookup_insert_ne by done.
    destruct (Hf j H) as [-> ->]. done.
  - done.
Qed.

(** Removing a record from the pending map. *)
Lemma Inv_delete s id :
  Inv s → Inv (set_pending (delete id (pendingRequestsRef s)) s).
Proof.
  intros [Hp Ho Hf Ht]. split; simpl; try done.
  intros j r H. apply lookup_delete_Some in H as [_ H]. eauto.
Qed.

Lemma settles_Resolve id v j : j ≠ id → settles j (Resolve id v) = false.
Proof. intros H. simpl. apply Z.eqb_neq. congruence. Qed.

Lemma settles_Reject id v j : j ≠ id → settles j (Reject id v) = false.
Proof. intros H. simpl. apply Z.eqb_neq. congruence. Qed.

(** The response branch of [handleMessage] on a pending id. *)
Lemma response_settles s data id r :
  Inv s →
  is_response data = true →
  prop data "id" = JNum id →
  pendingRequestsRef s !! id = Some r →
  let s' := handleMessage cfg data s in
  let arg := js_or (prop (prop data "error") "message") (JStr "Unknown error") in
  Inv s' ∧
  pendingRequestsRef s' = delete id (pendingRequestsRef s) ∧
  requestIdRef s' = requestIdRef s ∧
  timers s' = timers s ∧ now s' = now s ∧
  isReady s' = isReady s ∧ teardowns s' = teardowns s ∧
  trace s' = trace s ++
    (if truthy (prop data "error")
     then ConsoleError "Error response from host:" data ::
          match new_Error arg with
          | Some message => [Reject id message; CallToolRejected id message]
          | None => [UncaughtTypeError]
          end
     else Resolve id (prop data "result") ::
          callTool_resume cfg id (Fulfilled (prop data "result"))).
Proof.
  intros HI Hresp Hid Hr. simpl.
  rewrite (handleMessage_response cfg data s Hresp), Hid. simpl. rewrite Hr.
  destruct (inv_pending s HI id r Hr) as (Hprom & Hun & Hzero & Hlt).
  rewrite Hprom.
  pose proof (Inv_delete s id HI) as HI1.
  destruct (truthy (prop data "error")).
  - destruct (new_Error _) as [message|].
    + unfold reject. rewrite settle_spec by done.
      split; [| simpl; split_and!; try done; by rewrite <- app_assoc].
      apply Inv_settled; [| | | done | apply Z.eqb_refl | apply settles_Reject].
      * apply (Inv_frame (set_pending (delete id (pendingRequestsRef s)) s) _
                 [ConsoleError "Error response from host:" data]);
          [exact HI1 | done .. | by repeat constructor].
      * apply lookup_delete_eq.
      * simpl. rewrite count_app, Hzero. done.
    + split; [| simpl; split_and!; try done; by rewrite <- app_assoc].
      apply (Inv_frame (set_pending (delete id (pendingRequestsRef s)) s) _
               [ConsoleError "Error response from host:" data; UncaughtTypeError]);
        [exact HI1 | done .. | simpl; by rewrite <- app_assoc | by repeat constructor].
  - unfold resolve. rewrite settle_spec by done.
    split; [| by simpl].
    apply Inv_settled;
      [done | apply lookup_delete_eq | done | done | apply Z.eqb_refl
      | apply settles_Resolve].
Qed.

(** A response that hits nothing changes nothing. *)
Lemma response_unmatched s data :
  is_response data = true →
  map_get (pendingRequestsRef s) (prop data "id") = None →
  handleMessage cfg data s = s.
Proof.
  intros Hresp Hnone.
  by rewrite (handleMessage_response cfg data s Hresp), Hnone.
Qed.

(** The timer callback on a pending id, and on one that is gone. *)
Lemma timeout_settles s id r :
  Inv s →
  pendingRequestsRef s !! id = Some r →
  let s' := timeout_callback cfg id s in
  Inv s' ∧
  pendingRequestsRef s' = delete id (pendingRequestsRef s) ∧
  requestIdRef s' = requestIdRef s ∧
  timers s' = timers s ∧ now s' = now s ∧
  isReady s' = isReady s ∧ teardowns s' = teardowns s ∧
  trace s' = trace s ++ [Reject id (JStr "Request timeout");
                         CallToolRejected id (JStr "Request timeout")].
Proof.
  intros HI Hr. simpl. unfold timeout_callback. rewrite Hr.
  destruct (inv_pending s HI id r Hr) as (Hprom & Hun & Hzero & Hlt).
  unfold reject. rewrite settle_spec by done.
  split; [| by simpl].
  apply Inv_settled;
    [by apply Inv_delete | apply lookup_delete_eq | done | done
    | apply Z.eqb_refl | apply settles_Reject].
Qed.

Lemma timeout_idle s id :
  pendingRequestsRef s !! id = None → timeout_callback cfg id s = s.
Proof. intros H. unfold timeout_callback. by rewrite H. Qed.

Lemma fire_sub id t ts ts' :
  fire id t ts = Some ts' → ∀ x, x ∈ ts' → x ∈ ts.
Proof.
  revert ts'. induction ts as [|[i d] ts IH]; intros ts' H x Hx; simpl in H; [done|].
  destruct ((i =? id) && (d <=? t)).
  - injection H as <-. by apply elem_of_cons; right.
  - destruct (fire id t ts) as [rest|]; [|done]. injection H as <-.
    apply elem_of_cons in Hx as [->|Hx]; [by apply elem_of_cons; left|].
    apply elem_of_cons; right. eauto.
Qed.

Lemma Inv_set_timers s ts :
  Inv s → (∀ x, x ∈ ts → x ∈ timers s) → Inv (set_timers ts s).
Proof.
  intros HI Hsub. eapply (Inv_frame s _ []); try done.
  - simpl. by rewrite app_nil_r.
  - constructor.
Qed.

Lemma Inv_handleMessage s data : Inv s → Inv (handleMessage cfg data s).
Proof.
  intros HI. destruct (is_response data) eqn:Hresp.
  - destruct (map_get (pendingRequestsRef s) (prop data "id")) as [r|] eqn:Hget.
    + destruct (prop data "id") as [| | | id | | |] eqn:Hid; try discriminate.
      simpl in Hget.
      by destruct (response_settles s data id r HI Hresp Hid Hget) as [? _].
    + by rewrite response_unmatched.
  - destruct (handleMessage_frame cfg data s Hresp)
      as (Hid & Hpend & Hprom & Htim & _ & es & Htr & Hq).
    eapply Inv_frame; eauto. by rewrite Htim.
Qed.

Lemma Inv_step s e s' : Inv s → step cfg s e = Some s' → Inv s'.
Proof.
  intros HI H. destruct e as [data|toolName args|method params|ms|id|k o]; simpl in H.
  - injection H as <-. by apply Inv_handleMessage.
  - injection H as <-. by apply Inv_sendRequest.
  - injection H as <-. eapply Inv_frame; try done. by repeat constructor.
  - destruct (0 <=? ms); [|done]. injection H as <-.
    eapply (Inv_frame s _ []); try done.
    + simpl. by rewrite app_nil_r.
    + constructor.
  - destruct (fire id (now s) (timers s)) as [ts|] eqn:Hfire; [|done].
    injection H as <-.
    pose proof (Inv_set_timers s ts HI (fire_sub _ _ _ _ Hfire)) as HI1.
    destruct (pendingRequestsRef s !! id) as [r|] eqn:Hr.
    + by destruct (timeout_settles (set_timers ts s) id r HI1 Hr) as [? _].
    + by rewrite timeout_idle.
  - destruct (teardowns s !! k) as [id|]; [|done]. injection H as <-.
    eapply Inv_frame; try done. apply quiet_handleTeardown_resume.
Qed.

Lemma Inv_run s es s' : Inv s → run cfg s es = Some s' → Inv s'.
Proof.
  revert s. induction es as [|e es IH]; intros s HI H; simpl in H.
  - by injection H as <-.
  - destruct (step cfg s e) as [s1|] eqn:Hstep; [|done].
    eauto using Inv_step.
Qed.

Lemma reachable_Inv s : reachable cfg s → Inv s.
Proof. intros [es H]. eapply Inv_run; [apply Inv_initial | done]. Qed.

Lemma run_app s es1 es2 :
  run cfg s (es1 ++ es2) =
    match run cfg s es1 with Some s1 => run cfg s1 es2 | None => None end.
Proof.
  revert s. induction es1 as [|e es1 IH]; intros s; simpl; [done|].
  destruct (step cfg s e); [apply IH | done].
Qed.

Lemma reachable_run s es s' :
  reachable cfg s → run cfg s es = Some s' → reachable cfg s'.
Proof.
  intros [es0 H0] H. exists (es0 ++ es). by rewrite run_app, H0.
Qed.

End Invariant.

(** ** What every step preserves *)

Section Progress.

Variable cfg : Config.

(** The trace and the list of awaited hooks only grow at the end when a
    message is handled; the clock does not move. *)
Lemma handleMessage_grows data s :
  (∃ es, trace (handleMessage cfg data s) = trace s ++ es) ∧
  (∃ tds, teardowns (handleMessage cfg data s) = teardowns s ++ tds) ∧
  now (handleMessage cfg data s) = now s.
Proof.
  unfold handleMessage, reject, resolve, settle, handleTeardown,
    sendNotification, sendMessage.
  repeat case_match; simpl; split_and!; try done;
    rewrite <- ?app_assoc;
    eexists; first [reflexivity | symmetry; apply app_nil_r].
Qed.

Lemma timeout_callback_grows id s :
  (∃ es, trace (timeout_callback cfg id s) = trace s ++ es) ∧
  teardowns (timeout_callback cfg id s) = teardowns s ∧
  now (timeout_callback cfg id s) = now s.
Proof.
  unfold timeout_callback, reject, settle.
  repeat case_match; simpl; split_and!; try done;
    rewrite <- ?app_assoc;
    eexists; first [reflexivity | symmetry; apply app_nil_r].
Qed.

Lemma step_grows s e s' :
  step cfg s e = Some s' →
  (∃ es, trace s' = trace s ++ es) ∧ now s ≤ now s'.
Proof.
  intros H. destruct e as [data|toolName args|method params|ms|id|k o]; simpl in H.
  - injection H as <-.
    destruct (handleMessage_grows data s) as (Htr & _ & ->). split; [done | lia].
  - injection H as <-. simpl. split; [by eexists | lia].
  - injection H as <-. simpl. split; [by eexists | lia].
  - destruct (0 <=? ms) eqn:Hms; [|done]. injection H as <-. simpl.
    split; [exists []; by rewrite app_nil_r | lia].
  - destruct (fire id (now s) (timers s)) as [ts|]; [|done]. injection H as <-.
    destruct (timeout_callback_grows id (set_timers ts s)) as (Htr & _ & ->).
    split; [done | simpl; lia].
  - destruct (teardowns s !! k) as [id|]; [|done]. injection H as <-. simpl.
    split; [by eexists | lia].
Qed.

Lemma run_grows s es s' :
  run cfg s es = Some s' →
  (∃ post, trace s' = trace s ++ post) ∧ now s ≤ now s'.
Proof.
  revert s. induction es as [|e es IH]; intros s H; simpl in H.
  - injection H as <-. split; [exists []; by rewrite app_nil_r | lia].
  - destruct (step cfg s e) as [s1|] eqn:Hstep; [|done].
    destruct (step_grows s e s1 Hstep) as [[es1 H1] Hn1].
    destruct (IH s1 H) as [[post H2] Hn2].
    split; [| lia]. exists (es1 ++ post). by rewrite H2, H1, app_assoc.
Qed.

(** An awaited hook stays at its index until it, or one before it,
    settles. *)
Lemma step_teardowns s e s' k id :
  step cfg s e = Some s' → spares k e = true →
  teardowns s !! k = Some id → teardowns s' !! k = Some id.
Proof.
  intros H Hk Hl. destruct e as [data|toolName args|method params|ms|i|j o]; simpl in H.
  - injection H as <-.
    destruct (handleMessage_grows data s) as (_ & [tds ->] & _).
    by apply lookup_app_l_Some.
  - by injection H as <-.
  - by injection H as <-.
  - destruct (0 <=? ms); [|done]. by injection H as <-.
  - destruct (fire i (now s) (timers s)) as [ts|]; [|done]. injection H as <-.
    by destruct (timeout_callback_grows i (set_timers ts s)) as (_ & -> & _).
  - destruct (teardowns s !! j) as [id'|]; [|done]. injection H as <-. simpl.
    simpl in Hk. apply Nat.ltb_lt in Hk. by rewrite list_lookup_delete_lt.
Qed.

Lemma run_teardowns s es s' k id :
  run cfg s es = Some s' → forallb (spares k) es = true →
  teardowns s !! k = Some id → teardowns s' !! k = Some id.
Proof.
  revert s. induction es as [|e es IH]; intros s H Hk Hl; simpl in H, Hk.
  - by injection H as <-.
  - destruct (step cfg s e) as [s1|] eqn:Hstep; [|done].
    apply andb_true_iff in Hk as [Hk1 Hk2].
    eauto using step_teardowns.
Qed.

(** *** Timers *)

Lemma deadlines_app id ts1 ts2 :
  deadlines id (ts1 ++ ts2) = deadlines id ts1 ++ deadlines id ts2.
Proof.
  induction ts1 as [|[i d] ts1 IH]; simpl; [done|].
  destruct (i =? id); simpl; by rewrite IH.
Qed.

Lemma deadlines_fresh id ts :
  (∀ i d, (i, d) ∈ ts → i < id) → deadlines id ts = [].
Proof.
  induction ts as [|[i d] ts IH]; intros H; simpl; [done|].
  destruct (Z.eqb_spec i id) as [->|Hne].
  - assert (id < id) by (apply (H id d); by left). lia.
  - apply IH. intros i' d' Hin. apply (H i' d'). by right.
Qed.

Lemma fire_unarmed id t ts : deadlines id ts = [] → fire id t ts = None.
Proof.
  induction ts as [|[i d] ts IH]; intros H; simpl in *; [done|].
  destruct (i =? id); [done|]. simpl. by rewrite IH.
Qed.

(** The timer of a request is due exactly from its deadline on. *)
Lemma fire_deadline id t ts D :
  deadlines id ts = [D] → is_Some (fire id t ts) ↔ D ≤ t.
Proof.
  induction ts as [|[i d] ts IH]; intros H; simpl in *; [done|].
  destruct (i =? id); simpl.
  - injection H as -> Hrest.
    destruct (Z.leb_spec D t) as [Hle|Hgt].
    + split; [done | by eexists].
    + rewrite (fire_unarmed id t ts Hrest). split; [by intros [? ?] | lia].
  - destruct (fire id t ts) as [rest|].
    + split; [intros _; apply IH; [done | by eexists] | by eexists].
    + split; [by intros [? ?] | intros Hle; by apply IH].
Qed.

Lemma fire_other id j t ts ts' :
  fire j t ts = Some ts' → j ≠ id → deadlines id ts' = deadlines id ts.
Proof.
  revert ts'. induction ts as [|[i d] ts IH]; intros ts' H Hne; simpl in H; [done|].
  destruct ((i =? j) && (d <=? t)) eqn:Hhit.
  - injection H as <-. simpl.
    apply andb_true_iff in Hhit as [Hij _]. apply Z.eqb_eq in Hij as ->.
    by destruct (Z.eqb_spec j id).
  - destruct (fire j t ts) as [rest|]; [|done]. injection H as <-. simpl.
    by rewrite (IH rest).
Qed.

(** *** A request nobody answers stays pending *)

Lemma step_keeps s e s' id r :
  Inv s → step cfg s e = Some s' → answers id e = false →
  pendingRequestsRef s !! id = Some r →
  pendingRequestsRef s' !! id = Some r ∧
  deadlines id (timers s') = deadlines id (timers s).
Proof.
  intros HI H Hans Hr.
  destruct (inv_pending s HI id r Hr) as (_ & _ & _ & Hlt).
  destruct e as [data|toolName args|method params|ms|i|k o]; simpl in H, Hans.
  - injection H as <-. destruct (is_response data) eqn:Hresp.
    + destruct (map_get (pendingRequestsRef s) (prop data "id")) as [r'|] eqn:Hget.
      * destruct (prop data "id") as [| | | j | | |] eqn:Hid; try discriminate.
        simpl in Hget.
        destruct (response_settles cfg s data j r' HI Hresp Hid Hget)
          as (_ & -> & _ & -> & _).
        unfold response_for in Hans. rewrite Hresp, Hid in Hans. simpl in Hans.
        apply Z.eqb_neq in Hans. by rewrite lookup_delete_ne.
      * by rewrite response_unmatched.
    + destruct (handleMessage_frame cfg data s Hresp) as (_ & -> & _ & -> & _). done.
  - injection H as <-. simpl. rewrite lookup_insert_ne by lia.
    rewrite deadlines_app. simpl.
    destruct (Z.eqb_spec (requestIdRef s) id); [lia|]. by rewrite app_nil_r.
  - by injection H as <-.
  - destruct (0 <=? ms); [|done]. by injection H as <-.
  - destruct (fire i (now s) (timers s)) as [ts|] eqn:Hfire; [|done].
    injection H as <-. apply Z.eqb_neq in Hans.
    pose proof (Inv_set_timers s ts HI (fire_sub _ _ _ _ Hfire)) as HI1.
    destruct (pendingRequestsRef s !! i) as [r'|] eqn:Hr'.
    + destruct (timeout_settles cfg (set_timers ts s) i r' HI1 Hr')
        as (_ & -> & _ & -> & _).
      simpl. rewrite lookup_delete_ne by done. eauto using fire_other.
    + rewrite timeout_idle by done. simpl. eauto using fire_other.
  - destruct (teardowns s !! k) as [id'|]; [|done]. by injection H as <-.
Qed.

Lemma run_keeps s es s' id r :
  Inv s → run cfg s es = Some s' →
  forallb (λ e, negb (answers id e)) es = true →
  pendingRequestsRef s !! id = Some r →
  pendingRequestsRef s' !! id = Some r ∧
  deadlines id (timers s') = deadlines id (timers s).
Proof.
  revert s. induction es as [|e es IH]; intros s HI H Hans Hr; simpl in H, Hans.
  - by injection H as <-.
  - destruct (step cfg s e) as [s1|] eqn:Hstep; [|done].
    apply andb_true_iff in Hans as [Ha1 Ha2]. apply negb_true_iff in Ha1.
    destruct (step_keeps s e s1 id r HI Hstep Ha1 Hr) as [Hr1 Hd1].
    destruct (IH s1 (Inv_step cfg s e s1 HI Hstep) H Ha2 Hr1) as [Hr2 Hd2].
    split; [done | congruence].
Qed.

(** A settled request is no longer pending, and nothing settles it
    again. *)
Lemma settled_not_pending s id :
  Inv s → count (settles id) (trace s) = 1%nat →
  pendingRequestsRef s !! id = None.
Proof.
  intros HI Hone. destruct (pendingRequestsRef s !! id) as [r|] eqn:Hr; [|done].
  destruct (inv_pending s HI id r Hr) as (_ & _ & Hzero & _). lia.
Qed.

Lemma late_response_ignored s id data :
  pendingRequestsRef s !! id = None → response_for id data = true →
  handleMessage cfg data s = s.
Proof.
  intros Hnone Hfor. unfold response_for in Hfor.
  apply andb_true_iff in Hfor as [Hresp Hid].
  apply response_unmatched; [done|].
  destruct (prop data "id"); try discriminate.
  apply Z.eqb_eq in Hid as ->. done.
Qed.

End Progress.

(** ** Outbound tool calls *)

(** C1 (as amended).  [callTool] performs no readiness check: in every
    state, whether or not [ui/initialize] has been handled, the call
    allocates the next id, registers it as pending, arms its timeout and
    sends one [tools/call] request envelope carrying the tool name and
    arguments to the host; [isReady] is neither read nor changed. *)
Theorem callTool_sends_in_every_state (toolName : string) (args : JsVal) (s : State) :
  let id := requestIdRef s in
  let s' := snd (callTool toolName args s) in
  fst (callTool toolName args s) = id ∧
  trace s' = trace s ++
    [PostMessage (JObj [("jsonrpc", JStr "2.0"); ("id", JNum id);
                        ("method", JStr "tools/call");
                        ("params", JObj [("name", JStr toolName);
                                         ("arguments", args)])])] ∧
  pendingRequestsRef s' !! id = Some {| promiseOf := id |} ∧
  requestIdRef s' = id + 1 ∧
  timers s' = timers s ++ [(id, now s + 30000)] ∧
  isReady s' = isReady s.
Proof.
  simpl. split_and!; try done. apply lookup_insert_eq.
Qed.

(** C1 (as stated) fails: before any [ui/initialize] the session is not
    ready, yet [callTool("todo_add", {text: "milk"})] posts its
    [tools/call] envelope to the host at once, and nothing is rejected. *)
Lemma callTool_before_ready_is_sent :
  isReady initial = false ∧
  step app_cfg initial (CallTool "todo_add" milk) =
    Some (snd (callTool "todo_add" milk initial)) ∧
  trace (snd (callTool "todo_add" milk initial)) =
    [PostMessage (request_envelope 1 "tools/call"
       (JObj [("name", JStr "todo_add"); ("arguments", milk)]))] ∧
  isReady (snd (callTool "todo_add" milk initial)) = false.
Proof. done. Qed.

(** ** Responses *)

(** C4.  An inbound response whose id is not a key of the pending map is
    dropped: the handler returns normally and the whole state (pending
    map, readiness, promises, and the trace of callbacks, posts, logs and
    exceptions) is unchanged. *)
Theorem unmatched_response_ignored (cfg : Config) (s : State) (data : JsVal) :
  is_response data = true →
  map_get (pendingRequestsRef s) (prop data "id") = None →
  handleMessage cfg data s = s ∧ step cfg s (Message data) = Some s.
Proof.
  intros Hresp Hnone. simpl. by rewrite response_unmatched.
Qed.

Lemma unmatched_response_ignored_witness :
  let s := snd (callTool "todo_add" milk initial) in
  is_response (reply (JNum 7) todos) = true ∧
  map_get (pendingRequestsRef s) (prop (reply (JNum 7) todos) "id") = None ∧
  handleMessage app_cfg (reply (JNum 7) todos) s = s ∧
  step app_cfg s (Message (reply (JNum 7) todos)) = Some s.
Proof.
  split; [reflexivity|]. split; [reflexivity|].
  apply (unmatched_response_ignored app_cfg
           (snd (callTool "todo_add" milk initial)) (reply (JNum 7) todos));
    reflexivity.
Defined.

(** C10 (as amended).  A response that matches a pending request and
    carries a truthy [error] removes the pending record, whatever its
    [result] field holds, and the request is rejected with an [Error]
    built from [error.message || "Unknown error"]: its message is
    ["Unknown error"] when the message field is absent or falsy (an
    empty string, 0, [null], [false]); the field itself when that is a
    non-empty string; and the string conversion of the field when that
    is another truthy value with one (42 gives ["42"]; a number is meant
    to be a safe integer).  The rejection reaches the caller of
    [callTool]. *)
Theorem error_response_rejects (cfg : Config) (s : State) (data : JsVal) (id : Z) :
  reachable cfg s →
  is_response data = true →
  prop data "id" = JNum id →
  is_Some (pendingRequestsRef s !! id) →
  truthy (prop data "error") = true →
  let field := prop (prop data "error") "message" in
  let rejected_with (text : string) :=
    trace (handleMessage cfg data s) = trace s ++
      [ConsoleError "Error response from host:" data;
       Reject id (JStr text); CallToolRejected id (JStr text)] in
  pendingRequestsRef (handleMessage cfg data s) !! id = None ∧
  (truthy field = false → rejected_with "Unknown error") ∧
  (∀ m, field = JStr m → m ≠ "" → rejected_with m) ∧
  (∀ text, truthy field = true → safe_integers field = true →
     to_string field = Some text → rejected_with text).
Proof.
  intros Hreach Hresp Hid [r Hr] Herr field rejected_with.
  destruct (response_settles cfg s data id r (reachable_Inv cfg s Hreach) Hresp Hid Hr)
    as (_ & Hpend & _ & _ & _ & _ & _ & Htr).
  rewrite Herr in Htr. fold field in Htr.
  assert (∀ text, truthy field = true → to_string field = Some text →
            rejected_with text) as Hconv.
  { intros text Htruthy Htext. unfold rejected_with. rewrite Htr.
    unfold js_or, new_Error. rewrite Htruthy.
    destruct field; try discriminate; by rewrite Htext. }
  split_and!.
  - rewrite Hpend. apply lookup_delete_eq.
  - intros Hfalsy. unfold rejected_with. rewrite Htr.
    unfold js_or. by rewrite Hfalsy.
  - intros m Hm Hne. apply Hconv; rewrite Hm; [|done].
    simpl. by destruct (String.eqb_spec m "").
  - intros text Htruthy _ Htext. by apply Hconv.
Qed.

Lemma error_response_rejects_witness :
  let s := snd (callTool "todo_add" milk initial) in
  let data := JObj [("jsonrpc", JStr "2.0"); ("id", JNum 1); ("result", todos);
                    ("error", JObj [("code", JNum (-32000)); ("message", JStr "boom")])] in
  trace (handleMessage app_cfg data s) = trace s ++
    [ConsoleError "Error response from host:" data;
     Reject 1 (JStr "boom"); CallToolRejected 1 (JStr "boom")].
Proof.
  intros s data.
  destruct (error_response_rejects app_cfg s data 1) as (_ & _ & Hmsg & _).
  - by exists [CallTool "todo_add" milk].
  - reflexivity.
  - reflexivity.
  - by eexists.
  - reflexivity.
  - apply (Hmsg "boom"); [reflexivity | done].
Defined.

(** C10 (as stated) fails.  A message field that is present and falsy
    without being an empty string (0) gives ["Unknown error"]; a message
    field that is not a string (42) gives its string conversion
    (["42"]), not the field; and on a message field that has no string
    conversion (an object with a [toString] property of its own)
    [new Error] throws after the record has been deleted, so that the
    request is not rejected, and no longer pending either. *)
Lemma error_message_is_not_always_the_field :
  let s := snd (callTool "todo_add" milk initial) in
  let zero := error_reply (JNum 1) (JObj [("message", JNum 0)]) in
  let number := error_reply (JNum 1) (JObj [("message", JNum 42)]) in
  let object := error_reply (JNum 1)
                  (JObj [("message", JObj [("toString", JNum 1)])]) in
  (defined (prop (prop zero "error") "message") = true ∧
   trace (handleMessage app_cfg zero s) = trace s ++
     [ConsoleError "Error response from host:" zero;
      Reject 1 (JStr "Unknown error"); CallToolRejected 1 (JStr "Unknown error")]) ∧
  (trace (handleMessage app_cfg number s) = trace s ++
     [ConsoleError "Error response from host:" number;
      Reject 1 (JStr "42"); CallToolRejected 1 (JStr "42")] ∧
   JStr "42" ≠ prop (prop number "error") "message") ∧
  (is_Some (pendingRequestsRef s !! 1) ∧
   truthy (prop object "error") = true ∧
   trace (handleMessage app_cfg object s) = trace s ++
     [ConsoleError "Error response from host:" object; UncaughtTypeError] ∧
   count (settles 1) (trace (handleMessage app_cfg object s)) = 0%nat ∧
   promises (handleMessage app_cfg object s) !! 1 = Some Unsettled ∧
   pendingRequestsRef (handleMessage app_cfg object s) !! 1 = None).
Proof.
  intros s zero number object.
  split_and!; try reflexivity; [done | by eexists].
Qed.

(** C6.  When the response to a [callTool] request carries no truthy
    error, the request resolves with [data.result] and, with an
    [onToolResult] callback registered, the continuation of [callTool]
    calls it exactly once with that same payload before returning it.
    An unsolicited [tool-result] notification goes to the same
    callback. *)
Theorem callTool_success_invokes_callback
    (cfg : Config) (s : State) (data : JsVal) (id : Z) :
  reachable cfg s →
  onToolResult cfg = true →
  is_response data = true →
  prop data "id" = JNum id →
  is_Some (pendingRequestsRef s !! id) →
  truthy (prop data "error") = false →
  trace (handleMessage cfg data s) = trace s ++
    [Resolve id (prop data "result");
     ToolResult (prop data "result");
     CallToolFulfilled id (prop data "result")] ∧
  toolResults (trace (handleMessage cfg data s)) =
    toolResults (trace s) ++ [prop data "result"] ∧
  ∀ params,
    trace (handleMessage cfg (tool_result_notification params) s) =
      trace s ++ [ToolResult (js_or params (JObj []))].
Proof.
  intros Hreach Hcb Hresp Hid [r Hr] Herr.
  destruct (response_settles cfg s data id r (reachable_Inv cfg s Hreach) Hresp Hid Hr)
    as (_ & _ & _ & _ & _ & _ & _ & Htr).
  rewrite Herr in Htr. simpl in Htr. rewrite Hcb in Htr. simpl in Htr.
  split_and!; [done | |].
  - rewrite Htr. clear. induction (trace s) as [|e t IH]; simpl; [done|].
    destruct e; simpl; by rewrite ?IH.
  - intros params. unfold handleMessage. simpl. by rewrite Hcb.
Qed.

Lemma callTool_success_invokes_callback_witness :
  let s := snd (callTool "todo_add" milk initial) in
  trace (handleMessage app_cfg (reply (JNum 1) todos) s) = trace s ++
    [Resolve 1 todos; ToolResult todos; CallToolFulfilled 1 todos].
Proof.
  intros s.
  destruct (callTool_success_invokes_callback app_cfg s (reply (JNum 1) todos) 1)
    as (Htr & _ & _).
  - by exists [CallTool "todo_add" milk].
  - reflexivity.
  - reflexivity.
  - reflexivity.
  - by eexists.
  - reflexivity.
  - exact Htr.
Defined.

(** ** Notifications *)

(** C8 (as amended).  [handleMessage] never reads [isReady]: a
    [tool-input], [tool-result] or [host-context-changed] notification is
    processed in every state, ready or not; its callbacks and side effects
    are the same function of the message alone, appended to the trace of
    whatever state receives it. *)
Theorem notifications_processed_in_every_state
    (cfg : Config) (s : State) (data : JsVal) :
  is_response data = false →
  (str_is "ui/notifications/tool-input" (prop data "method") = true →
   handleMessage cfg data s =
     emit (if onToolInput cfg
           then [ToolInput (js_or (prop (prop data "params") "arguments") (JObj []))]
           else []) s) ∧
  (str_is "ui/notifications/tool-result" (prop data "method") = true →
   handleMessage cfg data s =
     emit (if onToolResult cfg
           then [ToolResult (js_or (prop data "params") (JObj []))]
           else []) s) ∧
  (str_is "ui/notifications/host-context-changed" (prop data "method") = true →
   handleMessage cfg data s =
     emit (ConsoleLog "Host context changed:" data ::
           (if truthy (prop (prop data "params") "theme")
            then applyTheme cfg (prop (prop data "params") "theme") else []) ++
           (if truthy (prop (prop (prop data "params") "styles") "variables")
            then applyStyleVariables (prop (prop (prop data "params") "styles") "variables")
            else [])) s).
Proof.
  intros Hresp.
  split_and!; intros Hm;
    auto using handleMessage_tool_input, handleMessage_tool_result,
               handleMessage_context_changed.
Qed.

Lemma notifications_processed_in_every_state_witness :
  is_response (tool_input_notification milk) = false ∧
  str_is "ui/notifications/tool-input"
    (prop (tool_input_notification milk) "method") = true ∧
  handleMessage full_cfg (tool_input_notification milk) initial =
    emit [ToolInput milk] initial.
Proof.
  split; [reflexivity|]. split; [reflexivity|].
  destruct (notifications_processed_in_every_state full_cfg initial
              (tool_input_notification milk) eq_refl) as (H & _ & _).
  exact (H eq_refl).
Defined.

(** C8 (as stated) fails: in the state of the first render, before any
    [ui/initialize], a [tool-result] notification already reaches the
    registered callback. *)
Lemma notification_before_ready_is_processed :
  isReady initial = false ∧
  trace (handleMessage app_cfg (tool_result_notification todos) initial) =
    [ToolResult todos] ∧
  isReady (handleMessage app_cfg (tool_result_notification todos) initial) = false.
Proof. done. Qed.

(** ** Host context *)

Section HostContext.

Variable cfg : Config.

Lemma attributes_applyTheme theme :
  attributes (applyTheme cfg theme) = [("data-theme", normalize_theme theme)].
Proof. unfold applyTheme. by destruct (onThemeChange cfg). Qed.


Lemma posts_applyTheme theme : posts (applyTheme cfg theme) = [].
Proof. unfold applyTheme. by destruct (onThemeChange cfg). Qed.



Lemma posts_apply_hostContext hc : posts (apply_hostContext cfg hc) = [].
Proof.
  unfold apply_hostContext, applyStyleVariables. rewrite !posts_app.
  repeat case_match; by rewrite ?posts_applyTheme, ?posts_setProperties.
Qed.






End HostContext.






(** ** Settlement of requests *)

(** C2.  In every state the hook can reach, the resolvers of a request id
    have been called at most once in total, be it [resolve] with a
    result, [reject] with a host error or [reject] with the timeout; and
    once an id is settled this stays so for ever after: a later response
    carrying that id leaves the state as it is, and so does its timer
    (which only disarms itself). *)
Theorem settled_at_most_once (cfg : Config) (es : list Event) (s : State) (id : Z) :
  run cfg initial es = Some s →
  (count (settles id) (trace s) ≤ 1)%nat ∧
  (count (settles id) (trace s) = 1%nat →
   ∀ es' s', run cfg s es' = Some s' →
     count (settles id) (trace s') = 1%nat ∧
     (∀ data, response_for id data = true → handleMessage cfg data s' = s') ∧
     (∀ s'', step cfg s' (TimerFires id) = Some s'' → ∃ ts, s'' = set_timers ts s')).
Proof.
  intros Hrun.
  assert (Inv s) as HI by (apply (reachable_Inv cfg); by exists es).
  split; [apply (inv_once s HI)|].
  intros Hone es' s' Hrun'.
  assert (Inv s') as HI' by eauto using Inv_run.
  assert (count (settles id) (trace s') = 1%nat) as Hone'.
  { destruct (run_grows cfg s es' s' Hrun') as [[post Hpost] _].
    pose proof (inv_once s' HI' id) as Hle.
    rewrite Hpost, count_app in *. lia. }
  pose proof (settled_not_pending s' id HI' Hone') as Hnone.
  split_and!; [done | |].
  - intros data Hfor. by apply late_response_ignored with id.
  - intros s'' Hstep. simpl in Hstep.
    destruct (fire id (now s') (timers s')) as [ts|]; [|done].
    injection Hstep as <-. exists ts. by apply timeout_idle.
Qed.

Lemma settled_at_most_once_witness :
  let s := handleMessage app_cfg (reply (JNum 1) todos)
             (snd (callTool "todo_add" milk initial)) in
  run app_cfg initial [CallTool "todo_add" milk; Message (reply (JNum 1) todos)] = Some s ∧
  (count (settles 1) (trace s) ≤ 1)%nat ∧
  handleMessage app_cfg (error_reply (JNum 1) (JObj [("message", JStr "late")])) s = s.
Proof.
  intros s.
  assert (run app_cfg initial
            [CallTool "todo_add" milk; Message (reply (JNum 1) todos)] = Some s)
    as Hrun by reflexivity.
  destruct (settled_at_most_once app_cfg _ s 1 Hrun) as [Hle Hlater].
  destruct (Hlater eq_refl [] s eq_refl) as (_ & Hresp & _).
  split_and!; [exact Hrun | exact Hle | apply Hresp; reflexivity].
Defined.

(** C3.  A [callTool] request to which no response is delivered keeps
    its pending record and its timer; the timer can run exactly from
    30000 ms after the call on, whatever else the transport delivers or
    fails to deliver; when it runs, the record is removed and the promise
    is rejected with ["Request timeout"]; from then on the id counts
    exactly that one settlement, and a late response carrying the id is
    ignored. *)
Theorem request_times_out
    (cfg : Config) (s : State) (toolName : string) (args : JsVal)
    (es : list Event) (s2 : State) :
  reachable cfg s →
  run cfg (snd (callTool toolName args s)) es = Some s2 →
  forallb (λ e, negb (answers (requestIdRef s) e)) es = true →
  let id := requestIdRef s in
  (is_Some (step cfg s2 (TimerFires id)) ↔ now s + 30000 ≤ now s2) ∧
  ∀ s3, step cfg s2 (TimerFires id) = Some s3 →
    pendingRequestsRef s2 !! id = Some {| promiseOf := id |} ∧
    count (settles id) (trace s2) = 0%nat ∧
    pendingRequestsRef s3 !! id = None ∧
    trace s3 = trace s2 ++ [Reject id (JStr "Request timeout");
                            CallToolRejected id (JStr "Request timeout")] ∧
    ∀ es' s4, run cfg s3 es' = Some s4 →
      count (settles id) (trace s4) = 1%nat ∧
      ∀ data, response_for id data = true → handleMessage cfg data s4 = s4.
Proof.
  intros Hreach Hrun Hquiet id.
  pose proof (reachable_Inv cfg s Hreach) as HI.
  pose proof (Inv_sendRequest "tools/call"
                (JObj [("name", JStr toolName); ("arguments", args)]) s HI) as HI1.
  fold (callTool toolName args s) in HI1.
  assert (pendingRequestsRef (snd (callTool toolName args s)) !! id
          = Some {| promiseOf := id |}) as Hr1 by apply lookup_insert_eq.
  assert (deadlines id (timers (snd (callTool toolName args s))) = [now s + 30000])
    as Hd1.
  { simpl. rewrite deadlines_app, (deadlines_fresh id (timers s)) by apply (inv_timers s HI).
    simpl. fold id. by rewrite Z.eqb_refl. }
  destruct (run_keeps cfg _ es s2 id _ HI1 Hrun Hquiet Hr1) as [Hr2 Hd2].
  rewrite Hd1 in Hd2.
  pose proof (Inv_run cfg _ es s2 HI1 Hrun) as HI2.
  split.
  - rewrite <- (fire_deadline id (now s2) (timers s2) _ Hd2). simpl.
    destruct (fire id (now s2) (timers s2)) as [ts|];
      [split; intros _; by eexists | split; intros [? ?]; done].
  - intros s3 Hstep. simpl in Hstep.
    destruct (fire id (now s2) (timers s2)) as [ts|] eqn:Hfire; [|done].
    injection Hstep as <-.
    pose proof (Inv_set_timers s2 ts HI2 (fire_sub _ _ _ _ Hfire)) as HIt.
    destruct (timeout_settles cfg (set_timers ts s2) id _ HIt Hr2)
      as (HI3 & Hpend & _ & _ & _ & _ & _ & Htr).
    destruct (inv_pending s2 HI2 id _ Hr2) as (_ & _ & Hzero & _).
    split_and!; [done | done | rewrite Hpend; apply lookup_delete_eq | exact Htr |].
    intros es' s4 Hrun'.
    pose proof (Inv_run cfg _ es' s4 HI3 Hrun') as HI4.
    assert (count (settles id) (trace s4) = 1%nat) as Hone.
    { destruct (run_grows cfg _ es' s4 Hrun') as [[post Hpost] _].
      pose proof (inv_once s4 HI4 id) as Hle.
      rewrite Hpost, Htr, !count_app in *. simpl in *.
      rewrite Z.eqb_refl in *. lia. }
    split; [done|]. intros data Hfor.
    apply late_response_ignored with id; [|done].
    by apply settled_not_pending.
Qed.

Lemma request_times_out_witness :
  let s1 := snd (callTool "todo_add" milk initial) in
  let s2 := set_now 30000 (handleMessage app_cfg (tool_result_notification todos) s1) in
  let s3 := timeout_callback app_cfg 1 (set_timers [] s2) in
  run app_cfg s1 [Message (tool_result_notification todos); TimePasses 30000] = Some s2 ∧
  step app_cfg s2 (TimerFires 1) = Some s3 ∧
  pendingRequestsRef s3 !! 1 = None ∧
  trace s3 = trace s2 ++ [Reject 1 (JStr "Request timeout");
                          CallToolRejected 1 (JStr "Request timeout")] ∧
  handleMessage app_cfg (reply (JNum 1) todos) s3 = s3.
Proof.
  intros s1 s2 s3.
  assert (reachable app_cfg initial) as Hreach by (by exists []).
  assert (run app_cfg s1 [Message (tool_result_notification todos); TimePasses 30000]
          = Some s2) as Hrun by reflexivity.
  destruct (request_times_out app_cfg initial "todo_add" milk _ s2 Hreach Hrun eq_refl)
    as [_ Hfire].
  assert (step app_cfg s2 (TimerFires 1) = Some s3) as Hstep by reflexivity.
  destruct (Hfire s3 Hstep) as (_ & _ & Hgone & Htr & Hlater).
  destruct (Hlater [] s3 eq_refl) as [_ Hlate].
  split_and!; [exact Hrun | exact Hstep | exact Hgone | exact Htr |].
  apply Hlate. reflexivity.
Defined.

(** ** Teardown *)

(** C7.  An inbound [ui/resource-teardown] request is acknowledged
    exactly once.  Without a cleanup hook the handler posts the success
    response [{ jsonrpc: "2.0", id, result: {} }] with the id of the
    request at once.  With a hook, the handler calls it and posts
    nothing; the run then waits, whatever else happens meanwhile, until
    the promise of the hook settles, and on settlement, fulfilled or
    rejected alike, it posts that one response and is over. *)
Theorem teardown_acknowledged (cfg : Config) (s : State) (data : JsVal) :
  str_is "ui/resource-teardown" (prop data "method") = true →
  defined (prop data "id") = true →
  is_response data = false →
  let ack := JObj [("jsonrpc", JStr "2.0"); ("id", prop data "id"); ("result", JObj [])] in
  let s1 := handleMessage cfg data s in
  let k := length (teardowns s) in
  (onTeardown cfg = false →
     posts (trace s1) = posts (trace s) ++ [ack] ∧ teardowns s1 = teardowns s) ∧
  (onTeardown cfg = true →
     trace s1 = trace s ++ [ConsoleLog "Resource teardown requested:" data; TeardownHook] ∧
     teardowns s1 = teardowns s ++ [prop data "id"] ∧
     ∀ es s2 o,
       run cfg s1 es = Some s2 → forallb (spares k) es = true →
       ∃ s3, step cfg s2 (HookSettles k o) = Some s3 ∧
             posts (trace s3) = posts (trace s2) ++ [ack] ∧
             teardowns s3 = delete k (teardowns s2)).
Proof.
  intros Hm Hid Hresp ack s1 k. subst s1.
  rewrite (handleMessage_teardown cfg data s Hresp Hm Hid).
  unfold handleTeardown. split; intros Hhook; rewrite Hhook.
  - cbn [trace teardowns emit]. by rewrite <- app_assoc, posts_app.
  - cbn [trace teardowns emit set_teardowns].
    split_and!; [by rewrite <- app_assoc | done |].
    intros es s2 o Hrun Hspare.
    assert (teardowns s2 !! k = Some (prop data "id")) as Hk.
    { apply (run_teardowns cfg _ es s2 k _ Hrun Hspare).
      cbn [teardowns set_teardowns]. apply list_lookup_middle. done. }
    simpl. rewrite Hk. eexists. split_and!; [done | | done].
    cbn [trace emit set_teardowns]. rewrite posts_app.
    by destruct o.
Qed.

Lemma teardown_acknowledged_witness :
  let data := teardown_request (JNum 9) in
  let s1 := handleMessage full_cfg data initial in
  let s2 := snd (callTool "todo_list" (JObj []) s1) in
  posts (trace s1) = [] ∧
  ∃ s3, step full_cfg s2 (HookSettles 0 (HookRejected (JStr "cleanup failed"))) = Some s3 ∧
        posts (trace s3) = posts (trace s2) ++ [teardown_response (JNum 9)] ∧
        teardowns s3 = [].
Proof.
  intros data s1 s2. split; [reflexivity|].
  destruct (teardown_acknowledged full_cfg initial data eq_refl eq_refl eq_refl)
    as [_ Hhook].
  destruct (Hhook eq_refl) as (_ & _ & Hsettle).
  exact (Hsettle [CallTool "todo_list" (JObj [])] s2
           (HookRejected (JStr "cleanup failed")) eq_refl eq_refl).
Defined.

(** ** More on the dispatcher *)

Lemma emit_nil s : emit [] s = s.
Proof. destruct s. unfold emit. simpl. by rewrite app_nil_r. Qed.

Lemma str_is_true a v : str_is a v = true → v = JStr a.
Proof.
  destruct v; try discriminate. simpl. intros H.
  by apply String.eqb_eq in H as ->.
Qed.

Lemma posts_callTool_resume cfg p o : posts (callTool_resume cfg p o) = [].
Proof. destruct o; simpl; [done | by destruct (onToolResult cfg) | done]. Qed.

Section Branches.

Variable cfg : Config.

(** The fall-through of [handleMessage]: no branch takes the message. *)
Lemma handleMessage_other data s :
  is_response data = false →
  str_is "ui/initialize" (prop data "method") = false →
  str_is "ui/notifications/tool-input" (prop data "method") = false →
  str_is "ui/notifications/tool-result" (prop data "method") = false →
  str_is "ui/notifications/host-context-changed" (prop data "method") = false →
  str_is "ui/resource-teardown" (prop data "method") && defined (prop data "id") = false →
  handleMessage cfg data s = emit (unhandled data) s.
Proof.
  intros Hresp H1 H2 H3 H4 H5. unfold is_response in Hresp.
  unfold handleMessage.
  destruct (negb (truthy data) || negb (typeof_object data)) eqn:Hobj.
  - destruct data; try discriminate; by rewrite emit_nil.
  - by rewrite Hresp, H1, H2, H3, H4, H5.
Qed.

(** The response branch: what it can do besides settling. *)
Lemma handleMessage_response_frame data s :
  is_response data = true →
  isReady (handleMessage cfg data s) = isReady s ∧
  teardowns (handleMessage cfg data s) = teardowns s ∧
  requestIdRef (handleMessage cfg data s) = requestIdRef s ∧
  timers (handleMessage cfg data s) = timers s ∧
  ∃ es, trace (handleMessage cfg data s) = trace s ++ es ∧
        posts es = [] ∧ attributes es = [] ∧ themeChanges es = [] ∧
        properties es = [] ∧ appStates es = [] ∧
        count is_TeardownHook es = 0%nat.
Proof.
  intros Hresp. rewrite (handleMessage_response cfg data s Hresp).
  unfold reject, resolve, settle, callTool_resume.
  repeat case_match; simpl; split_and!; try done;
    rewrite <- ?app_assoc;
    (eexists; split; [first [reflexivity | symmetry; apply app_nil_r] |]);
    done.
Qed.

(** A message that is not a response acts by its shape alone. *)
Lemma handleMessage_effects data s :
  is_response data = false →
  trace (handleMessage cfg data s) = trace s ++ message_effects cfg data ∧
  isReady (handleMessage cfg data s) =
    isReady s || str_is "ui/initialize" (prop data "method") ∧
  teardowns (handleMessage cfg data s) =
    teardowns s ++
    (if str_is "ui/resource-teardown" (prop data "method") &&
        defined (prop data "id") && onTeardown cfg
     then [prop data "id"] else []).
Proof.
  intros Hresp. unfold message_effects.
  destruct (str_is "ui/initialize" (prop data "method")) eqn:H1.
  { rewrite (handleMessage_initialize cfg data s Hresp H1).
    rewrite (str_is_true _ _ H1). cbn. by rewrite orb_true_r, app_nil_r. }
  destruct (str_is "ui/notifications/tool-input" (prop data "method")) eqn:H2.
  { rewrite (handleMessage_tool_input cfg data s Hresp H2).
    rewrite (str_is_true _ _ H2). cbn. by rewrite orb_false_r, app_nil_r. }
  destruct (str_is "ui/notifications/tool-result" (prop data "method")) eqn:H3.
  { rewrite (handleMessage_tool_result cfg data s Hresp H3).
    rewrite (str_is_true _ _ H3). cbn. by rewrite orb_false_r, app_nil_r. }
  destruct (str_is "ui/notifications/host-context-changed" (prop data "method")) eqn:H4.
  { rewrite (handleMessage_context_changed cfg data s Hresp H4).
    rewrite (str_is_true _ _ H4). cbn. by rewrite orb_false_r, app_nil_r. }
  destruct (str_is "ui/resource-teardown" (prop data "method") &&
            defined (prop data "id")) eqn:H5.
  { apply andb_true_iff in H5 as [H5 Hid].
    rewrite (handleMessage_teardown cfg data s Hresp H5 Hid).
    unfold handleTeardown. rewrite orb_false_r.
    destruct (onTeardown cfg); cbn; rewrite <- ?app_assoc, ?app_nil_r; done. }
  rewrite (handleMessage_other data s Hresp H1 H2 H3 H4 H5).
  cbn. by rewrite orb_false_r, app_nil_r.
Qed.

End Branches.

(** ** What the handler sends *)

Lemma posts_unhandled data : posts (unhandled data) = [].
Proof. unfold unhandled. by repeat case_match. Qed.

Lemma posts_message_effects cfg data :
  posts (message_effects cfg data) =
    if str_is "ui/initialize" (prop data "method") then
      [response_envelope (prop data "id") (handshake_result cfg);
       initialized_notification]
    else if str_is "ui/resource-teardown" (prop data "method") &&
            defined (prop data "id") && negb (onTeardown cfg)
    then [teardown_response (prop data "id")]
    else [].
Proof.
  unfold message_effects.
  destruct (str_is "ui/initialize" (prop data "method")) eqn:H1.
  { cbn [posts]. by rewrite posts_app, posts_apply_hostContext. }
  destruct (str_is "ui/notifications/tool-input" (prop data "method")) eqn:H2.
  { rewrite (str_is_true _ _ H2). cbn. by destruct (onToolInput cfg). }
  destruct (str_is "ui/notifications/tool-result" (prop data "method")) eqn:H3.
  { rewrite (str_is_true _ _ H3). cbn. by destruct (onToolResult cfg). }
  destruct (str_is "ui/notifications/host-context-changed" (prop data "method")) eqn:H4.
  { rewrite (str_is_true _ _ H4). simpl (str_is _ _). cbn [andb posts].
    rewrite posts_app.
    destruct (truthy (prop (prop data "params") "theme"));
      destruct (truthy (prop (prop (prop data "params") "styles") "variables"));
      unfold applyStyleVariables;
      by rewrite ?posts_applyTheme, ?posts_setProperties. }
  destruct (str_is "ui/resource-teardown" (prop data "method") &&
            defined (prop data "id")) eqn:H5.
  { by destruct (onTeardown cfg). }
  apply posts_unhandled.
Qed.

Lemma handleMessage_posts cfg data s :
  posts (trace (handleMessage cfg data s)) = posts (trace s) ++ replies cfg data.
Proof.
  unfold replies. destruct (is_response data) eqn:Hresp.
  - destruct (handleMessage_response_frame cfg data s Hresp)
      as (_ & _ & _ & _ & es & Htr & Hposts & _).
    by rewrite Htr, posts_app, Hposts.
  - destruct (handleMessage_effects cfg data s Hresp) as (-> & _ & _).
    by rewrite posts_app, posts_message_effects.
Qed.


(** X2.  A payload without a truthy [method] that is not response-shaped
    (a primitive, [null], an array, an object without method) is dropped:
    the state, trace included, is unchanged. *)
Theorem malformed_payload_dropped (cfg : Config) (data : JsVal) (s : State) :
  is_response data = false →
  truthy (prop data "method") = false →
  handleMessage cfg data s = s ∧ step cfg s (Message data) = Some s.
Proof.
  intros Hresp Hm.
  assert (∀ a, a ≠ "" → str_is a (prop data "method") = false) as Hno.
  { intros a Ha. destruct (str_is a (prop data "method")) eqn:E; [|done].
    rewrite (str_is_true _ _ E) in Hm. simpl in Hm.
    apply negb_false_iff, String.eqb_eq in Hm. done. }
  assert (handleMessage cfg data s = s) as Hsame.
  { rewrite handleMessage_other; try done; rewrite ?Hno; try done.
    unfold unhandled. destruct (prop data "method"); try discriminate;
      simpl in *; rewrite ?Hm; apply emit_nil. }
  split; [done | simpl; by rewrite Hsame].
Qed.

Lemma malformed_payload_dropped_witness :
  handleMessage full_cfg (JArr [JStr "ui/initialize"]) initial = initial ∧
  handleMessage full_cfg (JObj [("jsonrpc", JStr "2.0"); ("id", JNum 3)]) initial = initial.
Proof.
  split.
  - apply (malformed_payload_dropped full_cfg (JArr [JStr "ui/initialize"]) initial);
      reflexivity.
  - apply (malformed_payload_dropped full_cfg
             (JObj [("jsonrpc", JStr "2.0"); ("id", JNum 3)]) initial); reflexivity.
Defined.

(** X3.  A message with a string method for which [handleMessage] has no
    branch changes nothing but the console: it is logged as unhandled
    unless its method is empty or contains ["tool"]; no callback runs and
    nothing is posted. *)
Theorem unknown_method_only_logged
    (cfg : Config) (data : JsVal) (m : string) (s : State) :
  is_response data = false →
  prop data "method" = JStr m →
  m ∉ handled_methods →
  handleMessage cfg data s =
    emit (if String.eqb m "" || includes "tool" m then []
          else [ConsoleLog "Unhandled message:" data]) s.
Proof.
  intros Hresp Hm Hnot.
  assert (∀ a, a ∈ handled_methods → str_is a (prop data "method") = false) as Hno.
  { intros a Ha. rewrite Hm. simpl. apply String.eqb_neq. by intros ->. }
  rewrite handleMessage_other; try done;
    rewrite ?Hno; try done; try (unfold handled_methods; set_solver).
  unfold unhandled. rewrite Hm. simpl.
  by destruct (String.eqb m ""), (includes "tool" m).
Qed.

Lemma unknown_method_only_logged_witness :
  let ping := JObj [("jsonrpc", JStr "2.0"); ("method", JStr "ping")] in
  let other := JObj [("jsonrpc", JStr "2.0"); ("method", JStr "ui/notifications/tool-cancelled")] in
  trace (handleMessage full_cfg ping initial) = [ConsoleLog "Unhandled message:" ping] ∧
  trace (handleMessage full_cfg other initial) = [].
Proof.
  intros ping other.
  assert (∀ m, bool_decide (m ∈ handled_methods) = false → m ∉ handled_methods) as Hdec.
  { intros m H. by apply bool_decide_eq_false in H. }
  split.
  - rewrite (unknown_method_only_logged full_cfg ping "ping" initial eq_refl eq_refl);
      [reflexivity | by apply Hdec].
  - rewrite (unknown_method_only_logged full_cfg other
               "ui/notifications/tool-cancelled" initial eq_refl eq_refl);
      [reflexivity | by apply Hdec].
Defined.

(** X4.  A [ui/resource-teardown] message without an id is not a
    teardown request to the handler: the cleanup hook is not called and
    no acknowledgement is posted, even with a hook registered; the
    message is only logged as unhandled. *)
Theorem teardown_without_id_not_acknowledged
    (cfg : Config) (data : JsVal) (s : State) :
  str_is "ui/resource-teardown" (prop data "method") = true →
  defined (prop data "id") = false →
  handleMessage cfg data s = emit [ConsoleLog "Unhandled message:" data] s.
Proof.
  intros Hm Hid.
  assert (is_response data = false) as Hresp by (unfold is_response; by rewrite Hid).
  pose proof (str_is_true _ _ Hm) as Heq.
  rewrite handleMessage_other; try done; rewrite ?Heq, ?Hid; try done.
  unfold unhandled. by rewrite Heq.
Qed.

Lemma teardown_without_id_not_acknowledged_witness :
  let data := JObj [("jsonrpc", JStr "2.0"); ("method", JStr "ui/resource-teardown")] in
  handleMessage full_cfg data initial = emit [ConsoleLog "Unhandled message:" data] initial.
Proof.
  intros data.
  apply (teardown_without_id_not_acknowledged full_cfg data initial); reflexivity.
Defined.

(** X5.  A message whose [method] is truthy but neither a string nor an
    array (a non-zero number, [true], an object) makes the handler throw:
    the last statement calls [data.method.includes], which such a value
    does not have.  Nothing else happens. *)
Theorem non_string_method_throws
    (cfg : Config) (data : JsVal) (s : State) :
  is_response data = false →
  match prop data "method" with
  | JNum n => n ≠ 0
  | JBool b => b = true
  | JObj _ => True
  | _ => False
  end →
  handleMessage cfg data s = emit [UncaughtTypeError] s.
Proof.
  intros Hresp Hm.
  rewrite handleMessage_other; try done;
    try (destruct (prop data "method"); done).
  unfold unhandled. destruct (prop data "method") as [| |b|n| | |]; try done.
  - by subst b.
  - simpl. by destruct (Z.eqb_spec n 0).
Qed.

Lemma non_string_method_throws_witness :
  trace (handleMessage full_cfg (JObj [("method", JNum 5)]) initial) = [UncaughtTypeError].
Proof.
  rewrite (non_string_method_throws full_cfg (JObj [("method", JNum 5)]) initial eq_refl);
    [reflexivity | done].
Defined.

(** ** What a run of the event loop posts *)

Section Sends.

Variable cfg : Config.

(** The timer callback does nothing but settle. *)
Lemma timeout_callback_frame id s :
  isReady (timeout_callback cfg id s) = isReady s ∧
  requestIdRef (timeout_callback cfg id s) = requestIdRef s ∧
  timers (timeout_callback cfg id s) = timers s ∧
  ∃ es, trace (timeout_callback cfg id s) = trace s ++ es ∧
        posts es = [] ∧ attributes es = [] ∧ themeChanges es = [].
Proof.
  unfold timeout_callback, reject, settle, callTool_resume.
  repeat case_match; simpl; split_and!; try done;
    rewrite <- ?app_assoc;
    (eexists; split; [first [reflexivity | symmetry; apply app_nil_r] |]);
    done.
Qed.

Lemma step_posts s e s' :
  step cfg s e = Some s' →
  posts (trace s') = posts (trace s) ++ step_sends cfg s e.
Proof.
  intros H. destruct e as [data|toolName args|method params|ms|id|k o]; simpl in H.
  - injection H as <-. apply handleMessage_posts.
  - injection H as <-. simpl. by rewrite posts_app.
  - injection H as <-. simpl. by rewrite posts_app.
  - destruct (0 <=? ms); [|done]. injection H as <-. simpl. by rewrite app_nil_r.
  - destruct (fire id (now s) (timers s)) as [ts|]; [|done]. injection H as <-.
    destruct (timeout_callback_frame id (set_timers ts s))
      as (_ & _ & _ & es & Htr & Hposts & _).
    rewrite Htr, posts_app, Hposts. done.
  - simpl. destruct (teardowns s !! k) as [id|]; [|done]. injection H as <-.
    simpl. rewrite posts_app. by destruct o.
Qed.

Lemma step_requestIdRef s e s' :
  step cfg s e = Some s' →
  requestIdRef s' =
    requestIdRef s + match e with CallTool _ _ => 1 | _ => 0 end.
Proof.
  intros H. destruct e as [data|toolName args|method params|ms|id|k o]; simpl in H.
  - injection H as <-. destruct (is_response data) eqn:Hresp.
    + destruct (handleMessage_response_frame cfg data s Hresp) as (_ & _ & -> & _). lia.
    + destruct (handleMessage_frame cfg data s Hresp) as (-> & _). lia.
  - injection H as <-. done.
  - injection H as <-. simpl. lia.
  - destruct (0 <=? ms); [|done]. injection H as <-. simpl. lia.
  - destruct (fire id (now s) (timers s)) as [ts|]; [|done]. injection H as <-.
    destruct (timeout_callback_frame id (set_timers ts s)) as (_ & -> & _).
    simpl. lia.
  - destruct (teardowns s !! k) as [id|]; [|done]. injection H as <-. simpl. lia.
Qed.

Lemma step_isReady s e s' :
  step cfg s e = Some s' →
  isReady s' =
    isReady s ||
    match e with
    | Message data => negb (is_response data) && str_is "ui/initialize" (prop data "method")
    | _ => false
    end.
Proof.
  intros H. destruct e as [data|toolName args|method params|ms|id|k o]; simpl in H.
  - injection H as <-. destruct (is_response data) eqn:Hresp.
    + destruct (handleMessage_response_frame cfg data s Hresp) as (-> & _).
      by rewrite orb_false_r.
    + by destruct (handleMessage_effects cfg data s Hresp) as (_ & -> & _).
  - injection H as <-. simpl. by rewrite orb_false_r.
  - injection H as <-. simpl. by rewrite orb_false_r.
  - destruct (0 <=? ms); [|done]. injection H as <-. simpl. by rewrite orb_false_r.
  - destruct (fire id (now s) (timers s)) as [ts|]; [|done]. injection H as <-.
    destruct (timeout_callback_frame id (set_timers ts s)) as (-> & _).
    simpl. by rewrite orb_false_r.
  - destruct (teardowns s !! k) as [id|]; [|done]. injection H as <-.
    simpl. by rewrite orb_false_r.
Qed.

Lemma sendable_step_sends s e : Forall (sendable cfg) (step_sends cfg s e).
Proof.
  destruct e as [data|toolName args|method params|ms|id|k o]; simpl;
    unfold replies; repeat case_match;
    repeat first [apply Forall_nil_2 | apply Forall_cons_2];
    unfold sendable, initialized_notification;
    first [ by left; do 3 eexists
          | by right; left; eexists
          | by do 2 right; left; do 2 eexists
          | by do 3 right; eexists ].
Qed.

Lemma request_ids_step_sends s e :
  omap request_id_of (step_sends cfg s e) =
    match e with CallTool _ _ => [JNum (requestIdRef s)] | _ => [] end.
Proof.
  destruct e as [data|toolName args|method params|ms|id|k o]; simpl; try done.
  - unfold replies. by repeat case_match.
  - unfold request_id_of. simpl. by rewrite andb_false_r.
  - by destruct (teardowns s !! k).
Qed.

Lemma handshake_step_sends s e :
  (∃ m, is_handshake_response cfg m ∧ m ∈ step_sends cfg s e) ↔
  match e with
  | Message data => negb (is_response data) && str_is "ui/initialize" (prop data "method") = true
  | _ => False
  end.
Proof.
  assert (∀ m id, is_handshake_response cfg m → m ∈ [teardown_response id] → False)
    as Hack.
  { intros m id [id' ->] Hin. apply list_elem_of_singleton in Hin. discriminate. }
  destruct e as [data|toolName args|method params|ms|id|k o]; simpl.
  - unfold replies. destruct (is_response data); simpl.
    { split; [|done]. by intros (m & _ & Hin%elem_of_nil). }
    destruct (str_is "ui/initialize" (prop data "method")).
    { split; [done|]. intros _. eexists. split; [by eexists|]. apply list_elem_of_here. }
    split; [|done]. intros (m & Hm & Hin). exfalso.
    case_match; [by eapply Hack | by apply elem_of_nil in Hin].
  - split; [|done]. intros (m & [id' ->] & Hin).
    apply list_elem_of_singleton in Hin. discriminate.
  - split; [|done]. intros (m & [id' ->] & Hin).
    apply list_elem_of_singleton in Hin. discriminate.
  - split; [|done]. by intros (m & _ & Hin%elem_of_nil).
  - split; [|done]. by intros (m & _ & Hin%elem_of_nil).
  - split; [|done]. intros (m & Hm & Hin).
    destruct (teardowns s !! k); [by eapply Hack | by apply elem_of_nil in Hin].
Qed.

Lemma initialize_step_sends s e :
  match e with
  | Message data => negb (is_response data) && str_is "ui/initialize" (prop data "method") = true
  | _ => False
  end →
  initialized_notification ∈ step_sends cfg s e.
Proof.
  destruct e as [data|toolName args|method params|ms|id|k o]; simpl; try done.
  unfold replies. destruct (is_response data); [done|].
  destruct (str_is "ui/initialize" (prop data "method")); [|done].
  intros _. apply list_elem_of_further, list_elem_of_here.
Qed.

Lemma run_isReady s es s' :
  run cfg s es = Some s' → isReady s = true → isReady s' = true.
Proof.
  revert s. induction es as [|e es IH]; intros s Hrun Hready; simpl in Hrun.
  - by injection Hrun as <-.
  - destruct (step cfg s e) as [s1|] eqn:Hstep; [|done].
    apply (IH s1 Hrun). by rewrite (step_isReady s e s1 Hstep), Hready.
Qed.

End Sends.

(** X6.  Request ids are allocated from 1 upwards without gaps or reuse:
    in every reachable state the ids of the [tools/call] requests posted
    so far (the posted envelopes with that method and an id; a
    notification sent through [sendNotification] has none) are, in
    order, 1, 2, ..., up to the counter minus one, however calls
    interleave with notifications, inbound messages, timers and
    teardowns. *)
Theorem request_ids_sequential (cfg : Config) (s : State) :
  reachable cfg s →
  1 ≤ requestIdRef s ∧
  request_ids (trace s) = JNum <$> seqZ 1 (requestIdRef s - 1).
Proof.
  intros [es Hrun]. revert s Hrun.
  induction es as [|e es IH] using rev_ind; intros s Hrun.
  - injection Hrun as <-. done.
  - rewrite run_app in Hrun.
    destruct (run cfg initial es) as [s0|] eqn:Hrun0; [|done].
    simpl in Hrun. destruct (step cfg s0 e) as [s1|] eqn:Hstep; [|done].
    injection Hrun as <-.
    destruct (IH s0 eq_refl) as [Hpos Hids].
    unfold request_ids in *.
    rewrite (step_posts cfg s0 e s1 Hstep), omap_app, Hids, request_ids_step_sends.
    rewrite (step_requestIdRef cfg s0 e s1 Hstep).
    destruct e; rewrite ?app_nil_r, ?Z.add_0_r; try done.
    split; [lia|].
    replace (requestIdRef s0 + 1 - 1) with ((requestIdRef s0 - 1) + 1) by lia.
    rewrite seqZ_app by lia. rewrite fmap_app. do 2 f_equal.
    rewrite seqZ_cons by lia. rewrite seqZ_nil by lia. simpl. f_equal. f_equal. lia.
Qed.

Lemma request_ids_sequential_witness :
  let s := snd (callTool "todo_list" (JObj [])
             (handleMessage app_cfg (initialize_request (JNum 0) light_context)
                (snd (callTool "todo_add" milk initial)))) in
  request_ids (trace s) = [JNum 1; JNum 2].
Proof.
  intros s.
  destruct (request_ids_sequential app_cfg s) as [_ H].
  - by exists [CallTool "todo_add" milk;
               Message (initialize_request (JNum 0) light_context);
               CallTool "todo_list" (JObj [])].
  - rewrite H. reflexivity.
Defined.

(** X7.  The hook never posts anything to the host but four kinds of
    envelope: a [tools/call] request with a numeric id, a name and
    arguments; the handshake response; a notification, with a method and
    params and no id (the [initialized] one of the handshake, or whatever
    the application sends through [sendNotification]); and an empty
    success result acknowledging a teardown. *)
Theorem only_four_envelopes_posted (cfg : Config) (s : State) (m : JsVal) :
  reachable cfg s →
  m ∈ posts (trace s) →
  (∃ id toolName args,
     m = JObj [("jsonrpc", JStr "2.0"); ("id", JNum id);
               ("method", JStr "tools/call");
               ("params", JObj [("name", JStr toolName); ("arguments", args)])]) ∨
  (∃ id, m = JObj [("jsonrpc", JStr "2.0"); ("id", id);
                   ("result", handshake_result cfg)]) ∨
  (∃ method params,
     m = JObj [("jsonrpc", JStr "2.0"); ("method", JStr method); ("params", params)]) ∨
  (∃ id, m = JObj [("jsonrpc", JStr "2.0"); ("id", id); ("result", JObj [])]).
Proof.
  intros [es Hrun]. revert s Hrun.
  induction es as [|e es IH] using rev_ind; intros s Hrun Hin.
  - injection Hrun as <-. by apply elem_of_nil in Hin.
  - rewrite run_app in Hrun.
    destruct (run cfg initial es) as [s0|] eqn:Hrun0; [|done].
    simpl in Hrun. destruct (step cfg s0 e) as [s1|] eqn:Hstep; [|done].
    injection Hrun as <-.
    rewrite (step_posts cfg s0 e s1 Hstep) in Hin.
    apply elem_of_app in Hin as [Hin|Hin]; [by apply (IH s0)|].
    pose proof (sendable_step_sends cfg s0 e) as Hall.
    rewrite Forall_forall in Hall. exact (Hall m Hin).
Qed.

Lemma only_four_envelopes_posted_witness :
  let s := sendNotification "ui/notifications/size-changed" (JObj [("height", JNum 320)])
             (handleMessage full_cfg (initialize_request (JNum 0) light_context) initial) in
  Forall (sendable full_cfg) (posts (trace s)).
Proof.
  intros s. apply Forall_forall. intros m Hin.
  apply (only_four_envelopes_posted full_cfg s m); [|exact Hin].
  by exists [Message (initialize_request (JNum 0) light_context);
             SendNotification "ui/notifications/size-changed" (JObj [("height", JNum 320)])].
Defined.

(** X8.  [isReady] is true exactly when a handshake response has been
    posted, that is when a [ui/initialize] has been handled; the
    [initialized] notification has then been posted too (the application
    may also have sent that notification itself, earlier, through
    [sendNotification]); and nothing ever sets [isReady] back to
    false. *)
Theorem ready_iff_handshake_done (cfg : Config) (s : State) :
  reachable cfg s →
  (isReady s = true ↔
   ∃ id, JObj [("jsonrpc", JStr "2.0"); ("id", id);
               ("result", handshake_result cfg)] ∈ posts (trace s)) ∧
  (isReady s = true →
   JObj [("jsonrpc", JStr "2.0");
         ("method", JStr "ui/notifications/initialized");
         ("params", JObj [])] ∈ posts (trace s)) ∧
  ∀ es s', run cfg s es = Some s' → isReady s = true → isReady s' = true.
Proof.
  intros Hreach.
  assert ((isReady s = true ↔
           ∃ m, is_handshake_response cfg m ∧ m ∈ posts (trace s)) ∧
          (isReady s = true → initialized_notification ∈ posts (trace s)))
    as [Hiff Hnote].
  { destruct Hreach as [es Hrun]. revert s Hrun.
    induction es as [|e es IH] using rev_ind; intros s Hrun.
    - injection Hrun as <-. simpl. split; [|done].
      split; [done | by intros (m & _ & Hin%elem_of_nil)].
    - rewrite run_app in Hrun.
      destruct (run cfg initial es) as [s0|] eqn:Hrun0; [|done].
      simpl in Hrun. destruct (step cfg s0 e) as [s1|] eqn:Hstep; [|done].
      injection Hrun as <-.
      destruct (IH s0 eq_refl) as [IHiff IHnote].
      rewrite (step_posts cfg s0 e s1 Hstep), (step_isReady cfg s0 e s1 Hstep).
      rewrite orb_true_iff. split.
      + rewrite IHiff. split.
        * intros [(m & Hm & Hin)|He].
          -- exists m. split; [done|]. apply elem_of_app. by left.
          -- assert (∃ m, is_handshake_response cfg m ∧ m ∈ step_sends cfg s0 e)
               as (m & Hm & Hin).
             { apply handshake_step_sends. by destruct e. }
             exists m. split; [done|]. apply elem_of_app. by right.
        * intros (m & Hm & Hin). apply elem_of_app in Hin as [Hin|Hin].
          -- left. by exists m.
          -- right. assert (∃ m, is_handshake_response cfg m ∧ m ∈ step_sends cfg s0 e)
               as He by (by exists m).
             apply handshake_step_sends in He. by destruct e.
      + intros [Hready|He]; apply elem_of_app.
        * left. by apply IHnote.
        * right. apply initialize_step_sends. by destruct e. }
  split_and!.
  - rewrite Hiff. split.
    + intros (m & [id ->] & Hin). by exists id.
    + intros (id & Hin). eexists. split; [by exists id | done].
  - exact Hnote.
  - intros es s' Hrun Hready. by apply (run_isReady cfg s es s').
Qed.

Lemma ready_iff_handshake_done_witness :
  let s := handleMessage app_cfg (initialize_request (JNum 0) light_context) initial in
  isReady s = true ∧
  isReady (snd (callTool "todo_list" (JObj []) s)) = true.
Proof.
  intros s.
  destruct (ready_iff_handshake_done app_cfg s) as (Hiff & _ & Hstay).
  - by exists [Message (initialize_request (JNum 0) light_context)].
  - assert (isReady s = true) as Hready.
    { apply Hiff. exists (JNum 0). apply list_elem_of_In. simpl. auto. }
    split; [exact Hready|].
    exact (Hstay [CallTool "todo_list" (JObj [])] _ eq_refl Hready).
Defined.

(** ** Timers and the accounting of ids *)

Lemma fire_length id t ts ts' :
  fire id t ts = Some ts' →
  length (deadlines id ts) = S (length (deadlines id ts')).
Proof.
  revert ts'. induction ts as [|[i d] ts IH]; intros ts' H; simpl in H; [done|].
  destruct ((i =? id) && (d <=? t)) eqn:Hhit.
  - injection H as <-. apply andb_true_iff in Hhit as [Hi _]. simpl. by rewrite Hi.
  - destruct (fire id t ts) as [rest|]; [|done]. injection H as <-. simpl.
    destruct (i =? id); simpl; by rewrite (IH rest).
Qed.

Section Accounting.

Variable cfg : Config.

Lemma TimerInv_initial : TimerInv initial.
Proof.
  split; simpl; [|lia]. intros id r H. by rewrite lookup_empty in H.
Qed.

Lemma TimerInv_step s e s' :
  Inv s → TimerInv s → step cfg s e = Some s' → TimerInv s'.
Proof.
  intros HI [Hp Ho] H.
  destruct e as [data|toolName args|method params|ms|j|k o]; simpl in H.
  - injection H as <-. destruct (is_response data) eqn:Hresp.
    + destruct (map_get (pendingRequestsRef s) (prop data "id")) as [r'|] eqn:Hget.
      * destruct (prop data "id") as [| | | j | | |] eqn:Hid; try discriminate.
        simpl in Hget.
        destruct (response_settles cfg s data j r' HI Hresp Hid Hget)
          as (_ & Hpend & _ & Htim & Hnow & _).
        split; rewrite ?Hpend, ?Htim, ?Hnow; [|done].
        intros id r Hr. apply lookup_delete_Some in Hr as [_ Hr]. eauto.
      * rewrite response_unmatched by done. by split.
    + destruct (handleMessage_frame cfg data s Hresp)
        as (_ & Hpend & _ & Htim & Hnow & _).
      split; rewrite ?Hpend, ?Htim, ?Hnow; done.
  - injection H as <-.
    assert (deadlines (requestIdRef s) (timers s) = []) as Hfresh
      by (apply deadlines_fresh, (inv_timers s HI)).
    split; simpl.
    + intros id r Hr. rewrite deadlines_app. simpl.
      destruct (Z.eqb_spec (requestIdRef s) id) as [<-|Hne].
      * rewrite Hfresh. eexists. split; [done | unfold TIMEOUT_MS; lia].
      * rewrite lookup_insert_ne in Hr by done. rewrite app_nil_r. eauto.
    + intros id. rewrite deadlines_app. simpl.
      destruct (Z.eqb_spec (requestIdRef s) id) as [<-|Hne].
      * by rewrite Hfresh.
      * rewrite app_nil_r. apply Ho.
  - injection H as <-. by split.
  - destruct (Z.leb_spec 0 ms); [|done]. injection H as <-.
    split; simpl; [|done].
    intros id r Hr. destruct (Hp id r Hr) as (d & Hd & Hle).
    exists d. split; [done | lia].
  - destruct (fire j (now s) (timers s)) as [ts|] eqn:Hfire; [|done].
    injection H as <-.
    pose proof (Inv_set_timers s ts HI (fire_sub _ _ _ _ Hfire)) as HI1.
    assert (∀ id, (length (deadlines id ts) ≤ 1)%nat) as Ho'.
    { intros id. destruct (decide (j = id)) as [<-|Hne].
      - pose proof (fire_length _ _ _ _ Hfire). specialize (Ho j). lia.
      - rewrite (fire_other id j _ _ _ Hfire Hne). apply Ho. }
    destruct (pendingRequestsRef s !! j) as [r'|] eqn:Hr'.
    + destruct (timeout_settles cfg (set_timers ts s) j r' HI1 Hr')
        as (_ & Hpend & _ & Htim & Hnow & _).
      split; rewrite ?Hpend, ?Htim, ?Hnow; simpl; [|done].
      intros id r Hr. apply lookup_delete_Some in Hr as [Hne Hr].
      rewrite (fire_other id j _ _ _ Hfire Hne). eauto.
    + rewrite timeout_idle by done. split; simpl; [|done].
      intros id r Hr. assert (j ≠ id) as Hne by congruence.
      rewrite (fire_other id j _ _ _ Hfire Hne). eauto.
  - destruct (teardowns s !! k) as [id|]; [|done]. injection H as <-.
    by split.
Qed.

Lemma reachable_TimerInv s : reachable cfg s → TimerInv s.
Proof.
  intros [es Hrun]. revert s Hrun.
  induction es as [|e es IH] using rev_ind; intros s Hrun.
  - injection Hrun as <-. apply TimerInv_initial.
  - rewrite run_app in Hrun.
    destruct (run cfg initial es) as [s0|] eqn:Hrun0; [|done].
    simpl in Hrun. destruct (step cfg s0 e) as [s1|] eqn:Hstep; [|done].
    injection Hrun as <-.
    apply (TimerInv_step s0 e s1); [| by apply IH | done].
    apply (reachable_Inv cfg). by exists es.
Qed.

(** No timer is armed for an id once its timer is gone. *)
Lemma step_unarmed s e s' id :
  step cfg s e = Some s' →
  id < requestIdRef s → deadlines id (timers s) = [] →
  id < requestIdRef s' ∧ deadlines id (timers s') = [].
Proof.
  intros H Hlt Hnone.
  split; [rewrite (step_requestIdRef cfg s e s' H); destruct e; lia|].
  destruct e as [data|toolName args|method params|ms|j|k o]; simpl in H.
  - injection H as <-. destruct (is_response data) eqn:Hresp.
    + by destruct (handleMessage_response_frame cfg data s Hresp) as (_ & _ & _ & -> & _).
    + by destruct (handleMessage_frame cfg data s Hresp) as (_ & _ & _ & -> & _).
  - injection H as <-. simpl. rewrite deadlines_app, Hnone. simpl.
    by destruct (Z.eqb_spec (requestIdRef s) id); [lia|].
  - by injection H as <-.
  - destruct (0 <=? ms); [|done]. by injection H as <-.
  - destruct (fire j (now s) (timers s)) as [ts|] eqn:Hfire; [|done].
    injection H as <-.
    destruct (timeout_callback_frame cfg j (set_timers ts s)) as (_ & _ & -> & _).
    simpl. destruct (decide (j = id)) as [->|Hne].
    + by rewrite (fire_unarmed id (now s) (timers s) Hnone) in Hfire.
    + by rewrite (fire_other id j _ _ _ Hfire Hne).
  - destruct (teardowns s !! k) as [id'|]; [|done]. by injection H as <-.
Qed.

Lemma run_unarmed s es s' id :
  run cfg s es = Some s' →
  id < requestIdRef s → deadlines id (timers s) = [] →
  deadlines id (timers s') = [].
Proof.
  revert s. induction es as [|e es IH]; intros s Hrun Hlt Hnone; simpl in Hrun.
  - by injection Hrun as <-.
  - destruct (step cfg s e) as [s1|] eqn:Hstep; [|done].
    destruct (step_unarmed s e s1 id Hstep Hlt Hnone). eauto.
Qed.

(** The promise a settlement leaves behind. *)
Lemma response_promises s data id r :
  Inv s →
  is_response data = true →
  prop data "id" = JNum id →
  pendingRequestsRef s !! id = Some r →
  promises (handleMessage cfg data s) =
    if truthy (prop data "error")
    then match new_Error (js_or (prop (prop data "error") "message")
                            (JStr "Unknown error")) with
         | Some message => <[id := Rejected message]> (promises s)
         | None => promises s
         end
    else <[id := Fulfilled (prop data "result")]> (promises s).
Proof.
  intros HI Hresp Hid Hr.
  rewrite (handleMessage_response cfg data s Hresp), Hid. simpl. rewrite Hr.
  destruct (inv_pending s HI id r Hr) as (-> & Hun & _).
  destruct (truthy (prop data "error")).
  - destruct (new_Error _); [|done]. unfold reject. by rewrite settle_spec.
  - unfold resolve. by rewrite settle_spec.
Qed.

Lemma timeout_promises s id r :
  Inv s →
  pendingRequestsRef s !! id = Some r →
  promises (timeout_callback cfg id s) =
    <[id := Rejected (JStr "Request timeout")]> (promises s).
Proof.
  intros HI Hr. unfold timeout_callback. rewrite Hr.
  destruct (inv_pending s HI id r Hr) as (_ & Hun & _).
  unfold reject. by rewrite settle_spec.
Qed.

Lemma new_Error_None arg :
  truthy arg = true → new_Error arg = None → to_string arg = None.
Proof.
  unfold new_Error. destruct arg; try done; by destruct (to_string _).
Qed.

(** An id that has left the map stays as it is while nothing settles it
    and its promise is not touched. *)
Lemma accounted_frame s s' id es :
  trace s' = trace s ++ es →
  count (settles id) es = 0%nat →
  promises s' !! id = promises s !! id →
  settled_once s id ∨ dropped s id →
  settled_once s' id ∨ dropped s' id.
Proof.
  intros Htr Hcount Hprom [[Hone Ho]|(Hzero & Hun & data & Hdata & Hin)].
  - left. split; [by rewrite Htr, count_app, Hcount, Hone | by rewrite Hprom].
  - right. split_and!.
    + by rewrite Htr, count_app, Hcount, Hzero.
    + by rewrite Hprom.
    + exists data. split; [done|]. rewrite Htr. apply elem_of_app. by left.
Qed.

Lemma Conserved_initial : Conserved initial.
Proof. split; simpl; [lia|]. intros id ?. lia. Qed.

Lemma Conserved_step s e s' :
  Inv s → Conserved s → step cfg s e = Some s' → Conserved s'.
Proof.
  intros HI [Hfirst Hc] H.
  split; [rewrite (step_requestIdRef cfg s e s' H); destruct e; lia|].
  destruct e as [data|toolName args|method params|ms|j|k o]; simpl in H.
  - injection H as <-. destruct (is_response data) eqn:Hresp.
    + destruct (map_get (pendingRequestsRef s) (prop data "id")) as [r'|] eqn:Hget.
      * destruct (prop data "id") as [| | | j | | |] eqn:Hid; try discriminate.
        simpl in Hget.
        destruct (response_settles cfg s data j r' HI Hresp Hid Hget)
          as (_ & Hpend & Hreq & _ & _ & _ & _ & Htr).
        pose proof (response_promises s data j r' HI Hresp Hid Hget) as Hprom.
        destruct (inv_pending s HI j r' Hget) as (_ & Hun & Hzero & _).
        rewrite Hpend, Hreq. intros id Hrange Hnone.
        destruct (decide (id = j)) as [->|Hne].
        -- destruct (truthy (prop data "error")) eqn:Herr.
           ++ destruct (new_Error _) as [message|] eqn:Hmsg.
              ** left. split.
                 --- rewrite Htr, count_app, Hzero. cbn [count settles].
                     by rewrite Z.eqb_refl.
                 --- rewrite Hprom, lookup_insert_eq. by eexists.
              ** right. split_and!.
                 --- rewrite Htr, count_app, Hzero. done.
                 --- by rewrite Hprom.
                 --- exists data. split.
                     +++ split_and!; [done | done |].
                         apply new_Error_None; [|done].
                         unfold js_or. by destruct (truthy (prop (prop data "error") "message")) eqn:E.
                     +++ rewrite Htr. apply elem_of_app. right. apply list_elem_of_here.
           ++ left. split.
              ** rewrite Htr, count_app, Hzero. cbn [count settles].
                 rewrite Z.eqb_refl.
                 by rewrite (count_quiet j _ (quiet_callTool_resume cfg j _)).
              ** rewrite Hprom, lookup_insert_eq. by eexists.
        -- rewrite lookup_delete_ne in Hnone by done.
           apply (accounted_frame s _ id _ Htr); [| |by apply Hc].
           ++ destruct (truthy (prop data "error")).
              ** destruct (new_Error _); cbn [count settles];
                   [destruct (Z.eqb_spec j id); [congruence | done] | done].
              ** cbn [count settles]. destruct (Z.eqb_spec j id); [congruence|].
                 by rewrite (count_quiet id _ (quiet_callTool_resume cfg j _)).
           ++ rewrite Hprom. destruct (truthy (prop data "error"));
                [destruct (new_Error _)|]; by rewrite ?lookup_insert_ne.
      * by rewrite response_unmatched.
    + destruct (handleMessage_frame cfg data s Hresp)
        as (Hreq & Hpend & Hprom & _ & _ & es & Htr & Hq).
      rewrite Hreq, Hpend. intros id Hrange Hnone.
      apply (accounted_frame s _ id es Htr (count_quiet id es Hq));
        [by rewrite Hprom | by apply Hc].
  - injection H as <-. simpl. intros id Hrange Hnone.
    destruct (decide (requestIdRef s = id)) as [<-|Hne].
    + by rewrite lookup_insert_eq in Hnone.
    + rewrite lookup_insert_ne in Hnone by done.
      eapply (accounted_frame s _ id); [done | done | | apply Hc; [lia | done]].
      simpl. by rewrite lookup_insert_ne.
  - injection H as <-. simpl. intros id Hrange Hnone.
    eapply (accounted_frame s _ id); [done | done | done | by apply Hc].
  - destruct (0 <=? ms); [|done]. by injection H as <-.
  - destruct (fire j (now s) (timers s)) as [ts|] eqn:Hfire; [|done].
    injection H as <-.
    pose proof (Inv_set_timers s ts HI (fire_sub _ _ _ _ Hfire)) as HI1.
    destruct (pendingRequestsRef s !! j) as [r'|] eqn:Hr'.
    + destruct (timeout_settles cfg (set_timers ts s) j r' HI1 Hr')
        as (_ & Hpend & Hreq & _ & _ & _ & _ & Htr).
      pose proof (timeout_promises (set_timers ts s) j r' HI1 Hr') as Hprom.
      destruct (inv_pending s HI j r' Hr') as (_ & _ & Hzero & _).
      rewrite Hpend, Hreq. simpl. intros id Hrange Hnone.
      destruct (decide (id = j)) as [->|Hne].
      * left. split.
        -- rewrite Htr, count_app. simpl. by rewrite Hzero, Z.eqb_refl.
        -- rewrite Hprom, lookup_insert_eq. by eexists.
      * rewrite lookup_delete_ne in Hnone by done.
        apply (accounted_frame s _ id _ Htr); [| |by apply Hc].
        -- simpl. by destruct (Z.eqb_spec j id); [congruence|].
        -- rewrite Hprom. simpl. by rewrite lookup_insert_ne.
    + rewrite timeout_idle by done. done.
  - destruct (teardowns s !! k) as [id'|]; [|done]. injection H as <-. simpl.
    intros id Hrange Hnone.
    eapply (accounted_frame s _ id);
      [done | apply (count_quiet id _ (quiet_handleTeardown_resume id' o)) | done
      | by apply Hc].
Qed.

Lemma reachable_Conserved s : reachable cfg s → Conserved s.
Proof.
  intros [es Hrun]. revert s Hrun.
  induction es as [|e es IH] using rev_ind; intros s Hrun.
  - injection Hrun as <-. apply Conserved_initial.
  - rewrite run_app in Hrun.
    destruct (run cfg initial es) as [s0|] eqn:Hrun0; [|done].
    simpl in Hrun. destruct (step cfg s0 e) as [s1|] eqn:Hstep; [|done].
    injection Hrun as <-.
    apply (Conserved_step s0 e s1); [| by apply IH | done].
    apply (reachable_Inv cfg). by exists es.
Qed.

(** Events that do not answer a request leave its settlement count. *)
Lemma step_count s e s' id :
  Inv s → step cfg s e = Some s' → answers id e = false →
  count (settles id) (trace s') = count (settles id) (trace s).
Proof.
  intros HI H Hans.
  destruct e as [data|toolName args|method params|ms|j|k o]; simpl in H, Hans.
  - injection H as <-. destruct (is_response data) eqn:Hresp.
    + destruct (map_get (pendingRequestsRef s) (prop data "id")) as [r'|] eqn:Hget.
      * destruct (prop data "id") as [| | | j | | |] eqn:Hid; try discriminate.
        simpl in Hget.
        destruct (response_settles cfg s data j r' HI Hresp Hid Hget)
          as (_ & _ & _ & _ & _ & _ & _ & Htr).
        unfold response_for in Hans. rewrite Hresp, Hid in Hans. simpl in Hans.
        rewrite Htr, count_app.
        destruct (truthy (prop data "error"));
          [destruct (new_Error _); cbn [count settles]; rewrite ?Hans; lia|].
        cbn [count settles]. rewrite Hans.
        rewrite (count_quiet id _ (quiet_callTool_resume cfg j _)). lia.
      * by rewrite response_unmatched.
    + destruct (handleMessage_frame cfg data s Hresp)
        as (_ & _ & _ & _ & _ & es & Htr & Hq).
      rewrite Htr, count_app, (count_quiet id es Hq). lia.
  - injection H as <-. simpl. rewrite count_app. simpl. lia.
  - injection H as <-. simpl. rewrite count_app. simpl. lia.
  - destruct (0 <=? ms); [|done]. by injection H as <-.
  - destruct (fire j (now s) (timers s)) as [ts|] eqn:Hfire; [|done].
    injection H as <-.
    pose proof (Inv_set_timers s ts HI (fire_sub _ _ _ _ Hfire)) as HI1.
    destruct (pendingRequestsRef s !! j) as [r'|] eqn:Hr'.
    + destruct (timeout_settles cfg (set_timers ts s) j r' HI1 Hr')
        as (_ & _ & _ & _ & _ & _ & _ & Htr).
      rewrite Htr, count_app. simpl. rewrite Hans. lia.
    + by rewrite timeout_idle.
  - destruct (teardowns s !! k) as [id'|]; [|done]. injection H as <-. simpl.
    rewrite count_app, (count_quiet id _ (quiet_handleTeardown_resume id' o)). lia.
Qed.

End Accounting.

(** X9.  Every pending request has exactly one armed timeout, due no
    later than 30000 ms from now, and that timeout can run as soon as its
    deadline has passed: no pending record can outlive its timer. *)
Theorem pending_request_has_timer (cfg : Config) (s : State) (id : Z) :
  reachable cfg s →
  is_Some (pendingRequestsRef s !! id) →
  ∃ d, deadlines id (timers s) = [d] ∧ d ≤ now s + 30000 ∧
       (is_Some (step cfg s (TimerFires id)) ↔ d ≤ now s).
Proof.
  intros Hreach [r Hr].
  destruct (ti_pending s (reachable_TimerInv cfg s Hreach) id r Hr) as (d & Hd & Hle).
  exists d. split_and!; [done | exact Hle |].
  rewrite <- (fire_deadline id (now s) (timers s) d Hd). simpl.
  destruct (fire id (now s) (timers s)) as [ts|];
    [split; intros _; by eexists | split; intros [? ?]; done].
Qed.

Lemma pending_request_has_timer_witness :
  let s := set_now 100 (snd (callTool "todo_add" milk (set_now 40 initial))) in
  deadlines 1 (timers s) = [30040] ∧
  step app_cfg s (TimerFires 1) = None ∧
  is_Some (step app_cfg (set_now 30040 s) (TimerFires 1)).
Proof.
  intros s.
  assert (reachable app_cfg s) as Hreach
    by (by exists [TimePasses 40; CallTool "todo_add" milk; TimePasses 60]).
  destruct (pending_request_has_timer app_cfg s 1 Hreach) as (d & Hd & _ & _);
    [by eexists|].
  split_and!; [reflexivity | reflexivity | by eexists].
Defined.

(** X10.  The timeout of a request runs at most once: after the timer of
    an id has run, no timer for that id is armed at any later point, so
    it cannot run again. *)
Theorem timeout_runs_at_most_once
    (cfg : Config) (s s' : State) (id : Z) (es : list Event) (s'' : State) :
  reachable cfg s →
  step cfg s (TimerFires id) = Some s' →
  run cfg s' es = Some s'' →
  step cfg s'' (TimerFires id) = None.
Proof.
  intros Hreach Hstep Hrun.
  pose proof (reachable_Inv cfg s Hreach) as HI.
  pose proof (reachable_TimerInv cfg s Hreach) as HT.
  pose proof Hstep as Hstep0. simpl in Hstep.
  destruct (fire id (now s) (timers s)) as [ts|] eqn:Hfire; [|done].
  injection Hstep as <-.
  pose proof (fire_length _ _ _ _ Hfire) as Hlen.
  pose proof (ti_once s HT id) as Hone.
  assert (id < requestIdRef s) as Hlt.
  { destruct (Z.lt_ge_cases id (requestIdRef s)) as [|Hge]; [done|].
    rewrite (deadlines_fresh id (timers s)) in Hlen; [done|].
    intros i d Hin. pose proof (inv_timers s HI i d Hin). lia. }
  destruct (timeout_callback_frame cfg id (set_timers ts s)) as (_ & Hreq & Htim & _).
  assert (deadlines id (timers s'') = []) as Hnone.
  { apply (run_unarmed cfg _ es s'' id Hrun).
    - by rewrite Hreq.
    - rewrite Htim. simpl. destruct (deadlines id ts); [done | simpl in *; lia]. }
  simpl. by rewrite (fire_unarmed id (now s'') (timers s'') Hnone).
Qed.

Lemma timeout_runs_at_most_once_witness :
  let s := set_now 30000 (snd (callTool "todo_add" milk initial)) in
  let s' := timeout_callback app_cfg 1 (set_timers [] s) in
  step app_cfg s (TimerFires 1) = Some s' ∧
  step app_cfg (set_now 90000 s') (TimerFires 1) = None.
Proof.
  intros s s'.
  assert (step app_cfg s (TimerFires 1) = Some s') as Hstep by reflexivity.
  split; [exact Hstep|].
  apply (timeout_runs_at_most_once app_cfg s s' 1 [TimePasses 60000]);
    [by exists [CallTool "todo_add" milk; TimePasses 30000] | exact Hstep | reflexivity].
Defined.

(** X11.  Every allocated id is accounted for: an id between 1 and the
    counter is either still pending, with its promise unsettled and no
    resolver called; or it is gone from the pending map, a resolver has
    been called exactly once and its promise is fulfilled or rejected;
    or it has been dropped: it is gone from the pending map, no resolver
    has been called and its promise stays unsettled, which happens only
    when an error response to it was logged whose message has no string
    conversion, so that [new Error] threw after the record had been
    deleted. *)
Theorem allocated_ids_accounted (cfg : Config) (s : State) (id : Z) :
  reachable cfg s →
  1 ≤ id < requestIdRef s →
  (is_Some (pendingRequestsRef s !! id) ∧
   promises s !! id = Some Unsettled ∧
   count (settles id) (trace s) = 0%nat) ∨
  (pendingRequestsRef s !! id = None ∧
   count (settles id) (trace s) = 1%nat ∧
   ∃ o, promises s !! id = Some o ∧ o ≠ Unsettled) ∨
  (pendingRequestsRef s !! id = None ∧
   count (settles id) (trace s) = 0%nat ∧
   promises s !! id = Some Unsettled ∧
   ∃ data, ConsoleError "Error response from host:" data ∈ trace s ∧
           prop data "id" = JNum id ∧
           truthy (prop data "error") = true ∧
           to_string (js_or (prop (prop data "error") "message")
                        (JStr "Unknown error")) = None).
Proof.
  intros Hreach Hrange.
  destruct (pendingRequestsRef s !! id) as [r|] eqn:Hr.
  - left. destruct (inv_pending s (reachable_Inv cfg s Hreach) id r Hr)
      as (_ & Hun & Hzero & _). by split_and!.
  - right.
    destruct (cons_settled s (reachable_Conserved cfg s Hreach) id Hrange Hr)
      as [[Hone Ho]|(Hzero & Hun & data & (Hid & Herr & Hmsg) & Hin)].
    + left. by split_and!.
    + right. split_and!; [done | done | done |]. exists data. by split_and!.
Qed.

Lemma allocated_ids_accounted_witness :
  let s := handleMessage app_cfg (reply (JNum 1) todos)
             (snd (callTool "todo_list" (JObj [])
                (snd (callTool "todo_add" milk initial)))) in
  promises s !! 1 = Some (Fulfilled todos) ∧
  count (settles 1) (trace s) = 1%nat ∧
  is_Some (pendingRequestsRef s !! 2).
Proof.
  intros s.
  assert (reachable app_cfg s) as Hreach
    by (by exists [CallTool "todo_add" milk; CallTool "todo_list" (JObj []);
                   Message (reply (JNum 1) todos)]).
  destruct (allocated_ids_accounted app_cfg s 1 Hreach)
    as [(Hp & _)|[(_ & Hone & _)|(_ & Hzero & _)]];
    [by simpl | by destruct Hp | | done].
  split_and!; [reflexivity | exact Hone | by eexists].
Defined.

(** X12.  Requests do not interfere: an event that is neither a response
    carrying the id of a request nor that request's own timer (a response
    to another request, another timer, a handshake, a notification, a
    teardown, a new call) calls no resolver of that request and leaves
    its pending record in place. *)
Theorem other_events_leave_request_alone
    (cfg : Config) (s : State) (e : Event) (s' : State) (id : Z) :
  reachable cfg s →
  step cfg s e = Some s' →
  answers id e = false →
  count (settles id) (trace s') = count (settles id) (trace s) ∧
  ∀ r, pendingRequestsRef s !! id = Some r → pendingRequestsRef s' !! id = Some r.
Proof.
  intros Hreach Hstep Hans.
  pose proof (reachable_Inv cfg s Hreach) as HI.
  split; [by apply (step_count cfg s e s' id)|].
  intros r Hr. by destruct (step_keeps cfg s e s' id r HI Hstep Hans Hr).
Qed.

Lemma other_events_leave_request_alone_witness :
  let s := snd (callTool "todo_list" (JObj []) (snd (callTool "todo_add" milk initial))) in
  let s' := handleMessage app_cfg
              (error_reply (JNum 2) (JObj [("message", JStr "no such tool")])) s in
  count (settles 1) (trace s') = 0%nat ∧
  pendingRequestsRef s' !! 1 = Some {| promiseOf := 1 |}.
Proof.
  intros s s'.
  destruct (other_events_leave_request_alone app_cfg s
              (Message (error_reply (JNum 2) (JObj [("message", JStr "no such tool")])))
              s' 1) as [Hcount Hkeep].
  - by exists [CallTool "todo_add" milk; CallTool "todo_list" (JObj [])].
  - reflexivity.
  - reflexivity.
  - split; [by rewrite Hcount | by apply Hkeep].
Defined.

(** ** Callbacks *)

Lemma themeChanges_app t1 t2 : themeChanges (t1 ++ t2) = themeChanges t1 ++ themeChanges t2.
Proof.
  induction t1 as [|e t1 IH]; simpl; [done|].
  destruct e; simpl; by rewrite ?IH.
Qed.


Lemma toolResults_app t1 t2 : toolResults (t1 ++ t2) = toolResults t1 ++ toolResults t2.
Proof.
  induction t1 as [|e t1 IH]; simpl; [done|].
  destruct e; simpl; by rewrite ?IH.
Qed.

Lemma themeChanges_setProperties kvs : themeChanges (setProperties kvs) = [].
Proof.
  induction kvs as [|[k v] kvs IH]; simpl; [done|].
  by destruct (truthy v).
Qed.


Section Themes.

Variable cfg : Config.

Lemma themed_nil : themed cfg [].
Proof. split; [constructor | by destruct (onThemeChange cfg)]. Qed.

Lemma themed_app es1 es2 : themed cfg es1 → themed cfg es2 → themed cfg (es1 ++ es2).
Proof.
  intros [H1 E1] [H2 E2]. split.
  - rewrite attributes_app. by apply Forall_app_2.
  - rewrite themeChanges_app, attributes_app, E1, E2.
    destruct (onThemeChange cfg); [by rewrite fmap_app | done].
Qed.

(** Effects that touch neither the document nor [onThemeChange]. *)
Lemma themed_plain es :
  attributes es = [] → themeChanges es = [] → themed cfg es.
Proof.
  intros Ha Ht. split; rewrite ?Ha, ?Ht; [constructor | by destruct (onThemeChange cfg)].
Qed.

Lemma themed_applyTheme theme : themed cfg (applyTheme cfg theme).
Proof.
  unfold themed. rewrite attributes_applyTheme. split.
  - apply Forall_cons_2; [|constructor].
    unfold theme_attribute, normalize_theme. simpl. split; [done|].
    destruct (str_is "light" theme); auto.
  - unfold applyTheme. by destruct (onThemeChange cfg).
Qed.

Lemma themed_theme theme :
  themed cfg (if truthy theme then applyTheme cfg theme else []).
Proof. destruct (truthy theme); [apply themed_applyTheme | apply themed_nil]. Qed.

Lemma themed_styles v :
  themed cfg (if truthy v then applyStyleVariables v else []).
Proof.
  destruct (truthy v); [|apply themed_nil].
  apply themed_plain; [apply attributes_setProperties | apply themeChanges_setProperties].
Qed.

Lemma themed_cons e es :
  attributes [e] = [] → themeChanges [e] = [] → themed cfg es → themed cfg (e :: es).
Proof. intros Ha Ht H. apply (themed_app [e] es); [by apply themed_plain | done]. Qed.

Lemma themed_apply_hostContext hc : themed cfg (apply_hostContext cfg hc).
Proof.
  unfold apply_hostContext.
  apply themed_app; [apply themed_theme|].
  apply themed_app; [apply themed_styles|].
  case_match; by apply themed_plain.
Qed.

Lemma themed_message_effects data : themed cfg (message_effects cfg data).
Proof.
  unfold message_effects.
  destruct (str_is "ui/initialize" (prop data "method")).
  { apply themed_cons; [done | done |].
    apply themed_app; [apply themed_apply_hostContext | by apply themed_plain]. }
  destruct (str_is "ui/notifications/tool-input" (prop data "method")).
  { case_match; by apply themed_plain. }
  destruct (str_is "ui/notifications/tool-result" (prop data "method")).
  { case_match; by apply themed_plain. }
  destruct (str_is "ui/notifications/host-context-changed" (prop data "method")).
  { apply themed_cons; [done | done |].
    apply themed_app; [apply themed_theme | apply themed_styles]. }
  destruct (str_is "ui/resource-teardown" (prop data "method") && defined (prop data "id")).
  { case_match; by apply themed_plain. }
  unfold unhandled. repeat case_match; by apply themed_plain.
Qed.

Lemma step_themed s e s' :
  step cfg s e = Some s' → ∃ es, trace s' = trace s ++ es ∧ themed cfg es.
Proof.
  intros H. destruct e as [data|toolName args|method params|ms|id|k o]; simpl in H.
  - injection H as <-. destruct (is_response data) eqn:Hresp.
    + destruct (handleMessage_response_frame cfg data s Hresp)
        as (_ & _ & _ & _ & es & Htr & _ & Ha & Ht & _).
      exists es. split; [done | by apply themed_plain].
    + destruct (handleMessage_effects cfg data s Hresp) as (Htr & _).
      eexists. split; [done | apply themed_message_effects].
  - injection H as <-. eexists. split; [done | by apply themed_plain].
  - injection H as <-. eexists. split; [done | by apply themed_plain].
  - destruct (0 <=? ms); [|done]. injection H as <-.
    exists []. split; [simpl; by rewrite app_nil_r | apply themed_nil].
  - destruct (fire id (now s) (timers s)) as [ts|]; [|done]. injection H as <-.
    destruct (timeout_callback_frame cfg id (set_timers ts s))
      as (_ & _ & _ & es & Htr & _ & Ha & Ht).
    exists es. split; [done | by apply themed_plain].
  - destruct (teardowns s !! k) as [id|]; [|done]. injection H as <-.
    eexists. split; [done|]. destruct o; by apply themed_plain.
Qed.

End Themes.

(** X13.  Across any run the hook writes no document attribute but
    [data-theme], and only with the values ["light"] and ["dark"]; and a
    registered [onThemeChange] is told exactly the themes written, in the
    same order (an unregistered one nothing). *)
Theorem only_light_or_dark_written (cfg : Config) (s : State) :
  reachable cfg s →
  Forall (λ a, a.1 = "data-theme" ∧ (a.2 = "light" ∨ a.2 = "dark"))
         (attributes (trace s)) ∧
  themeChanges (trace s) =
    if onThemeChange cfg then snd <$> attributes (trace s) else [].
Proof.
  intros [es Hrun]. revert s Hrun.
  induction es as [|e es IH] using rev_ind; intros s Hrun.
  - injection Hrun as <-. apply themed_nil.
  - rewrite run_app in Hrun.
    destruct (run cfg initial es) as [s0|] eqn:Hrun0; [|done].
    simpl in Hrun. destruct (step cfg s0 e) as [s1|] eqn:Hstep; [|done].
    injection Hrun as <-.
    destruct (step_themed cfg s0 e s1 Hstep) as (new & -> & Hnew).
    apply themed_app; [by apply IH | done].
Qed.

Lemma only_light_or_dark_written_witness :
  let s := handleMessage full_cfg
             (context_changed (JObj [("theme", JStr "high-contrast")]))
             (handleMessage full_cfg (initialize_request (JNum 0) light_context) initial) in
  attributes (trace s) = [("data-theme", "light"); ("data-theme", "dark")] ∧
  themeChanges (trace s) = ["light"; "dark"].
Proof.
  intros s.
  destruct (only_light_or_dark_written full_cfg s) as [_ Hcb].
  - by exists [Message (initialize_request (JNum 0) light_context);
               Message (context_changed (JObj [("theme", JStr "high-contrast")]))].
  - split; [reflexivity | rewrite Hcb; reflexivity].
Defined.

(** X14.  [tool-result] notifications are delivered to [onToolResult] one
    call per message, in arrival order and without deduplication: the
    payloads handed over are the [params] of the messages ([{}] for a
    missing or falsy [params]), repeats included. *)
Theorem tool_results_delivered_in_order
    (cfg : Config) (datas : list JsVal) (s : State) :
  onToolResult cfg = true →
  Forall (λ data, is_response data = false ∧
                  str_is "ui/notifications/tool-result" (prop data "method") = true) datas →
  ∃ s', run cfg s (Message <$> datas) = Some s' ∧
        toolResults (trace s') =
          toolResults (trace s) ++ ((λ data, js_or (prop data "params") (JObj [])) <$> datas).
Proof.
  intros Hcb Hall. revert s.
  induction Hall as [|data datas [Hresp Hm] _ IH]; intros s; simpl.
  - exists s. by rewrite app_nil_r.
  - destruct (IH (handleMessage cfg data s)) as (s' & Hrun & Htr).
    exists s'. split; [done|].
    rewrite Htr, (handleMessage_tool_result cfg data s Hresp Hm), Hcb.
    cbn [trace emit]. rewrite toolResults_app. by rewrite <- app_assoc.
Qed.

Lemma tool_results_delivered_in_order_witness :
  ∃ s', run app_cfg initial
          [Message (tool_result_notification todos);
           Message (tool_result_notification todos);
           Message (tool_result_notification JUndefined)] = Some s' ∧
        toolResults (trace s') = [todos; todos; JObj []].
Proof.
  apply (tool_results_delivered_in_order app_cfg
           [tool_result_notification todos; tool_result_notification todos;
            tool_result_notification JUndefined] initial eq_refl).
  repeat constructor.
Defined.



(** ** The store of the todo server *)

Lemma todos_get_set_eq k v m : todos_get k (todos_set k v m) = Some v.
Proof.
  induction m as [|[k' w] m IH]; simpl.
  - by rewrite String.eqb_refl.
  - destruct (String.eqb k' k) eqn:E; simpl; by rewrite E.
Qed.

Lemma todos_get_set_ne k k' v m :
  k ≠ k' → todos_get k' (todos_set k v m) = todos_get k' m.
Proof.
  intros Hne. induction m as [|[k0 w] m IH]; simpl.
  - by destruct (String.eqb_spec k k').
  - destruct (String.eqb_spec k0 k) as [->|]; simpl.
    + by destruct (String.eqb_spec k k').
    + by rewrite IH.
Qed.

Lemma todos_get_None k m : todos_get k m = None ↔ k ∉ fst <$> m.
Proof.
  induction m as [|[k' w] m IH]; cbn [todos_get].
  - split; [intros _; apply not_elem_of_nil | done].
  - rewrite fmap_cons, not_elem_of_cons, <- IH. cbn [fst].
    destruct (String.eqb_spec k' k) as [->|Hne].
    + split; [done | by intros [? _]].
    + split; [intros H; split; [congruence | done] | by intros [_ ?]].
Qed.

Lemma todos_set_fresh k v m :
  todos_get k m = None → todos_set k v m = m ++ [(k, v)].
Proof.
  induction m as [|[k' w] m IH]; simpl; [done|].
  destruct (String.eqb k' k); [done|]. intros H. by rewrite IH.
Qed.

Lemma todos_set_keys k v w m :
  todos_get k m = Some w → fst <$> todos_set k v m = fst <$> m.
Proof.
  induction m as [|[k' u] m IH]; cbn [todos_get todos_set]; [done|].
  destruct (String.eqb k' k); [done|]. intros H.
  rewrite !fmap_cons. f_equal. by apply IH.
Qed.

Lemma todos_set_same k w m : todos_get k m = Some w → todos_set k w m = m.
Proof.
  induction m as [|[k' u] m IH]; simpl; [done|].
  destruct (String.eqb k' k); [by intros [= ->] |]. intros H. by rewrite IH.
Qed.

Lemma todos_set_set k v w m : todos_set k v (todos_set k w m) = todos_set k v m.
Proof.
  induction m as [|[k' u] m IH]; simpl.
  - by rewrite String.eqb_refl.
  - destruct (String.eqb k' k) eqn:E; simpl; rewrite E; [done | by rewrite IH].
Qed.

Lemma todos_delete_fresh k v m :
  todos_get k m = None → todos_delete k (m ++ [(k, v)]) = m.
Proof.
  induction m as [|[k' w] m IH]; simpl.
  - by rewrite String.eqb_refl.
  - destruct (String.eqb k' k); [done|]. intros H. by rewrite IH.
Qed.

Lemma todos_get_delete_ne k k' m :
  k ≠ k' → todos_get k' (todos_delete k m) = todos_get k' m.
Proof.
  intros Hne. induction m as [|[k0 w] m IH]; simpl; [done|].
  destruct (String.eqb_spec k0 k) as [->|]; simpl.
  - by destruct (String.eqb_spec k k').
  - by rewrite IH.
Qed.

Lemma todos_delete_keys k m :
  ∀ x, x ∈ fst <$> todos_delete k m → x ∈ fst <$> m.
Proof.
  induction m as [|[k' w] m IH]; cbn [todos_delete]; [done|]. intros x.
  destruct (String.eqb k' k); rewrite !fmap_cons, !elem_of_cons.
  - by right.
  - intros [?|?]; [by left | right; by apply IH].
Qed.

Lemma todos_get_delete_eq k m :
  NoDup (fst <$> m) → todos_get k (todos_delete k m) = None.
Proof.
  induction m as [|[k' w] m IH]; cbn [todos_get todos_delete]; [done|].
  rewrite fmap_cons. intros [Hnotin Hnd]%NoDup_cons.
  destruct (String.eqb_spec k' k) as [->|Hne]; cbn [todos_get].
  - by apply todos_get_None.
  - destruct (String.eqb_spec k' k); [done | by apply IH].
Qed.

Lemma todos_delete_length k w m :
  todos_get k m = Some w → S (length (todos_delete k m)) = length m.
Proof.
  induction m as [|[k' u] m IH]; simpl; [done|].
  destruct (String.eqb k' k); simpl; [done|]. intros H. by rewrite IH.
Qed.

Lemma todos_delete_values k m :
  NoDup (fst <$> m) →
  todos_delete k m = List.filter (λ kv, negb (String.eqb (fst kv) k)) m.
Proof.
  induction m as [|[k' w] m IH]; cbn [todos_delete List.filter fst]; [done|].
  rewrite fmap_cons. intros [Hnotin Hnd]%NoDup_cons.
  destruct (String.eqb_spec k' k) as [->|Hne]; cbn [negb].
  - clear IH Hnd. induction m as [|[k0 u] m IH]; cbn [List.filter fst]; [done|].
    rewrite fmap_cons in Hnotin. apply not_elem_of_cons in Hnotin as [Hne Hnotin].
    simpl in Hne. destruct (String.eqb_spec k0 k); [congruence|]. cbn [negb]. by rewrite <- IH.
  - by rewrite IH.
Qed.

Lemma store_ok_set k v m :
  store_ok m → todo_id v = k → store_ok (todos_set k v m).
Proof.
  intros [Hnd Hall] Hk. destruct (todos_get k m) as [w|] eqn:Hget.
  - split; [by rewrite (todos_set_keys k v w m Hget)|].
    clear Hnd. induction m as [|[k' u] m IH]; simpl in *; [done|].
    apply Forall_cons in Hall as [Hu Hall].
    destruct (String.eqb_spec k' k) as [->|].
    + by constructor.
    + constructor; [done | by apply IH].
  - rewrite (todos_set_fresh k v m Hget). split.
    + rewrite fmap_app. simpl. apply NoDup_app. split_and!; [done | | apply NoDup_singleton].
      intros x Hx ->%list_elem_of_singleton. by apply todos_get_None in Hget.
    + apply Forall_app_2; [done | by constructor].
Qed.

Lemma store_ok_delete k m : store_ok m → store_ok (todos_delete k m).
Proof.
  intros [Hnd Hall]. split.
  - clear Hall. induction m as [|[k' u] m IH]; cbn [todos_delete]; [done|].
    rewrite fmap_cons in Hnd. apply NoDup_cons in Hnd as [Hnotin Hnd].
    destruct (String.eqb k' k); [done|].
    rewrite fmap_cons. apply NoDup_cons. split; [|by apply IH].
    intros Hin. by apply Hnotin, (todos_delete_keys k m).
  - clear Hnd. induction m as [|[k' u] m IH]; simpl in *; [done|].
    apply Forall_cons in Hall as [Hu Hall].
    destruct (String.eqb k' k); [done|]. constructor; [done | by apply IH].
Qed.

Lemma store_ok_get k v m : store_ok m → todos_get k m = Some v → todo_id v = k.
Proof.
  intros [_ Hall]. induction m as [|[k' u] m IH]; simpl; [done|].
  apply Forall_cons in Hall as [Hu Hall].
  destruct (String.eqb_spec k' k) as [->|]; [by intros [= <-] | by apply IH].
Qed.

(** The open count when one todo of the store is replaced. *)
Lemma openCount_set k v w m :
  todos_get k m = Some w →
  (openCount (todos_values (todos_set k v m)) + (if completed w then 0 else 1) =
   openCount (todos_values m) + (if completed v then 0 else 1))%nat.
Proof.
  unfold openCount, todos_values.
  induction m as [|[k' u] m IH]; cbn [todos_get todos_set]; [done|].
  destruct (String.eqb k' k).
  - intros [= ->]. rewrite !fmap_cons. cbn [List.filter snd].
    destruct (completed v), (completed w); cbn [negb length]; lia.
  - intros H. specialize (IH H). rewrite !fmap_cons. cbn [List.filter snd].
    destruct (completed u); cbn [negb length]; lia.
Qed.

Section ServerFacts.

Variable JSON_stringify : JsVal → string.

(** X16.  Every tool handler keeps the store well formed (keys unique,
    each todo filed under its own id, whatever id the generator returns),
    and every result, also a "not found" one, carries in
    [structuredContent] the whole list of the store as it is after the
    call, with the title ["Todos n"] where n counts its open todos. *)
Theorem serve_keeps_store_and_reports_it
    (call : ToolCall) (todos : list (string * Todo)) :
  store_ok todos →
  let todos' := fst (serve JSON_stringify call todos) in
  let result := snd (serve JSON_stringify call todos) in
  store_ok todos' ∧
  prop (prop result "structuredContent") "todos" =
    JArr (todo_js <$> todos_values todos') ∧
  prop (prop result "structuredContent") "title" =
    JStr (String.append "Todos " (index_key (openCount (todos_values todos')))).
Proof.
  intros Hok. destruct call as [newId timestamp text| |id|id]; simpl.
  - split_and!; [by apply store_ok_set | done | done].
  - done.
  - unfold todo_toggle. destruct (todos_get id todos) as [found|] eqn:Hget; simpl.
    + split_and!; [|done|done]. apply store_ok_set; [done|]. simpl.
      by apply (store_ok_get id found todos).
    + done.
  - unfold todo_remove. destruct (todos_get id todos) as [found|] eqn:Hget; simpl.
    + split_and!; [by apply store_ok_delete | done | done].
    + done.
Qed.

(** X17.  [todo_toggle] on an id of the store flips the [completed] flag
    of that todo and nothing else: the other todos, the order and the
    keys stay; the open count moves by one accordingly; the inline title
    names the new state; and toggling again restores the store. *)
Theorem todo_toggle_flips_and_undoes
    (id : string) (found : Todo) (todos : list (string * Todo)) :
  todos_get id todos = Some found →
  let todos' := fst (todo_toggle JSON_stringify id todos) in
  let result := snd (todo_toggle JSON_stringify id todos) in
  todos_get id todos' =
    Some {| todo_id := todo_id found; todo_text := todo_text found;
            completed := negb (completed found); createdAt := createdAt found |} ∧
  (∀ k, k ≠ id → todos_get k todos' = todos_get k todos) ∧
  fst <$> todos' = fst <$> todos ∧
  (openCount (todos_values todos') + (if completed found then 0 else 1) =
   openCount (todos_values todos) + (if completed found then 1 else 0))%nat ∧
  prop (prop result "structuredContent") "inlineTitle" =
    JStr (if completed found then "Uncompleted todo" else "Completed todo") ∧
  fst (todo_toggle JSON_stringify id todos') = todos.
Proof.
  intros Hget. unfold todo_toggle. rewrite Hget. simpl.
  split_and!.
  - apply todos_get_set_eq.
  - intros k Hne. by apply todos_get_set_ne.
  - by apply todos_set_keys with found.
  - rewrite (openCount_set id _ found todos Hget). simpl.
    by destruct (completed found).
  - by destruct (completed found).
  - rewrite todos_get_set_eq. simpl. rewrite todos_set_set, negb_involutive.
    destruct found. simpl in *. by apply todos_set_same.
Qed.

(** X18.  [todo_remove] on an id of the store takes out exactly that
    todo: the list is one shorter, the others keep their order, lookups
    of other ids are unchanged; the id is then unknown, so removing or
    toggling it again changes nothing and reports "Todo not found". *)
Theorem todo_remove_removes_exactly
    (id : string) (found : Todo) (todos : list (string * Todo)) :
  store_ok todos →
  todos_get id todos = Some found →
  let todos' := fst (todo_remove JSON_stringify id todos) in
  todos' = List.filter (λ kv, negb (String.eqb (fst kv) id)) todos ∧
  S (length todos') = length todos ∧
  todos_get id todos' = None ∧
  (∀ k, k ≠ id → todos_get k todos' = todos_get k todos) ∧
  todo_remove JSON_stringify id todos' = (todos', not_found JSON_stringify todos') ∧
  todo_toggle JSON_stringify id todos' = (todos', not_found JSON_stringify todos').
Proof.
  intros [Hnd Hall] Hget todos'.
  assert (todos' = todos_delete id todos) as ->
    by (unfold todos', todo_remove; by rewrite Hget).
  assert (todos_get id (todos_delete id todos) = None) as Hgone
    by by apply todos_get_delete_eq.
  split_and!.
  - by apply todos_delete_values.
  - by apply todos_delete_length with found.
  - done.
  - intros k Hne. by apply todos_get_delete_ne.
  - unfold todo_remove. by rewrite Hgone.
  - unfold todo_toggle. by rewrite Hgone.
Qed.

(** X19.  An unknown id changes nothing: [todo_toggle] and [todo_remove]
    return the store as it was, and a result with [success: false], the
    error "Todo not found" and the unchanged list. *)
Theorem unknown_id_changes_nothing (id : string) (todos : list (string * Todo)) :
  todos_get id todos = None →
  fst (todo_toggle JSON_stringify id todos) = todos ∧
  fst (todo_remove JSON_stringify id todos) = todos ∧
  snd (todo_toggle JSON_stringify id todos) = snd (todo_remove JSON_stringify id todos) ∧
  let sc := prop (snd (todo_toggle JSON_stringify id todos)) "structuredContent" in
  prop sc "success" = JBool false ∧
  prop sc "error" = JStr "Todo not found" ∧
  prop sc "todos" = JArr (todo_js <$> todos_values todos).
Proof.
  intros Hget. unfold todo_toggle, todo_remove. rewrite Hget. done.
Qed.

(** X20.  [todo_add] with a fresh id appends an open todo with the given
    text at the end of the list, reports the new total, and is undone by
    [todo_remove] of that id; with an id that is already in the store it
    replaces that todo in place and the list gets no longer. *)
Theorem todo_add_appends_or_replaces
    (newId timestamp text : string) (todos : list (string * Todo)) :
  let todo := {| todo_id := newId; todo_text := text;
                 completed := false; createdAt := timestamp |} in
  let todos' := fst (todo_add JSON_stringify newId timestamp text todos) in
  todos_get newId todos' = Some todo ∧
  (∀ k, k ≠ newId → todos_get k todos' = todos_get k todos) ∧
  (todos_get newId todos = None →
     todos' = todos ++ [(newId, todo)] ∧
     openCount (todos_values todos') = S (openCount (todos_values todos)) ∧
     fst (todo_remove JSON_stringify newId todos') = todos) ∧
  (is_Some (todos_get newId todos) → fst <$> todos' = fst <$> todos).
Proof.
  simpl. split_and!.
  - apply todos_get_set_eq.
  - intros k Hne. by apply todos_get_set_ne.
  - intros Hfresh. rewrite (todos_set_fresh _ _ _ Hfresh). split_and!; [done | |].
    + unfold openCount, todos_values. rewrite fmap_app, List.filter_app, length_app.
      simpl. lia.
    + unfold todo_remove.
      rewrite <- (todos_set_fresh _ _ _ Hfresh), todos_get_set_eq. simpl.
      rewrite (todos_set_fresh _ _ _ Hfresh). by apply todos_delete_fresh.
  - intros [old Hold]. by apply todos_set_keys with old.
Qed.

End ServerFacts.

Lemma serve_keeps_store_and_reports_it_witness :
  let result := snd (serve no_text (TodoToggle "todo_2") two_todos) in
  store_ok (fst (serve no_text (TodoToggle "todo_2") two_todos)) ∧
  prop (prop result "structuredContent") "title" = JStr "Todos 2".
Proof.
  intros result.
  assert (store_ok two_todos) as Hok.
  { split; [|by repeat constructor].
    apply (bool_decide_eq_true_1 (NoDup (fst <$> two_todos))). reflexivity. }
  destruct (serve_keeps_store_and_reports_it no_text (TodoToggle "todo_2") two_todos Hok)
    as (Hok' & _ & Htitle).
  split; [exact Hok' | exact Htitle].
Defined.

Lemma todo_toggle_flips_and_undoes_witness :
  (completed <$> todos_get "todo_1" (fst (todo_toggle no_text "todo_1" two_todos)))
    = Some true ∧
  fst (todo_toggle no_text "todo_1"
         (fst (todo_toggle no_text "todo_1" two_todos))) = two_todos.
Proof.
  destruct (todo_toggle_flips_and_undoes no_text "todo_1" buy_milk two_todos eq_refl)
    as (Hflip & _ & _ & _ & _ & Hundo).
  split; [by rewrite Hflip | exact Hundo].
Defined.

Lemma todo_remove_removes_exactly_witness :
  fst (todo_remove no_text "todo_1" two_todos) = [("todo_2", call_mum)] ∧
  prop (prop (snd (todo_remove no_text "todo_1"
                     (fst (todo_remove no_text "todo_1" two_todos))))
          "structuredContent") "error" = JStr "Todo not found".
Proof.
  assert (store_ok two_todos) as Hok.
  { split; [|by repeat constructor].
    apply (bool_decide_eq_true_1 (NoDup (fst <$> two_todos))). reflexivity. }
  destruct (todo_remove_removes_exactly no_text "todo_1" buy_milk two_todos Hok eq_refl)
    as (Hfilter & _ & _ & _ & Hagain & _).
  split; [by rewrite Hfilter | by rewrite Hagain].
Defined.

Lemma unknown_id_changes_nothing_witness :
  fst (todo_toggle no_text "todo_9" two_todos) = two_todos ∧
  fst (todo_remove no_text "" []) = [].
Proof.
  split.
  - by destruct (unknown_id_changes_nothing no_text "todo_9" two_todos eq_refl) as (H & _).
  - by destruct (unknown_id_changes_nothing no_text "" [] eq_refl) as (_ & H & _).
Defined.

Lemma todo_add_appends_or_replaces_witness :
  fst (todo_add no_text "todo_3" "2026-01-03T00:00:00.000Z" "" two_todos) =
    two_todos ++ [("todo_3", {| todo_id := "todo_3"; todo_text := "";
                                completed := false;
                                createdAt := "2026-01-03T00:00:00.000Z" |})] ∧
  length (fst (todo_add no_text "todo_2" "2026-01-03T00:00:00.000Z" "x" two_todos))
    = 2%nat.
Proof.
  destruct (todo_add_appends_or_replaces no_text "todo_3" "2026-01-03T00:00:00.000Z" "" two_todos)
    as (_ & _ & Hfresh & _).
  destruct (todo_add_appends_or_replaces no_text "todo_2" "2026-01-03T00:00:00.000Z" "x" two_todos)
    as (_ & _ & _ & Hsame).
  split.
  - by destruct (Hfresh eq_refl) as (H & _).
  - rewrite <- (length_fmap fst), Hsame; [reflexivity | by eexists].
Defined.

(** ** From the server to the application *)

Lemma serve_result J call todos :
  ∃ fs, snd (serve J call todos) = JObj fs ∧
        prop (prop (JObj fs) "structuredContent") "todos" =
          JArr (todo_js <$> todos_values (fst (serve J call todos))).
Proof.
  destruct call as [newId timestamp text| |id|id]; simpl;
    unfold todo_toggle, todo_remove; try case_match; simpl; by eexists.
Qed.

Lemma nullish_todo_js l : existsb nullish (todo_js <$> l) = false.
Proof. induction l as [|t l IH]; [done|]. by rewrite fmap_cons. Qed.

Lemma completedCount_todo_js l :
  (completedCount (todo_js <$> l) + openCount l = length l)%nat.
Proof.
  unfold completedCount, openCount.
  induction l as [|t l IH]; [done|].
  rewrite fmap_cons. cbn [List.filter]. unfold todo_js at 1. cbn [prop field String.eqb].
  simpl (truthy _). destruct (completed t); cbn [negb length]; lia.
Qed.

(** X21.  A tool result travels unchanged from the server to the screen:
    when the reply to a pending [callTool] carries the result of any of
    the four tool handlers, the hook hands exactly that result to
    [onToolResult]; [handleToolResult] then replaces the list of the
    application by the list of the server's store as it is after the
    call; and the header reads "No items" for an empty store and
    "completed/total done" otherwise. *)
Theorem served_result_reaches_app
    (J : JsVal → string) (cfg : Config) (s : State) (id : Z)
    (call : ToolCall) (todos : list (string * Todo)) (old : JsVal) :
  reachable cfg s →
  onToolResult cfg = true →
  is_Some (pendingRequestsRef s !! id) →
  let result := snd (serve J call todos) in
  let all := todos_values (fst (serve J call todos)) in
  let data := JObj [("jsonrpc", JStr "2.0"); ("id", JNum id); ("result", result)] in
  toolResults (trace (handleMessage cfg data s)) = toolResults (trace s) ++ [result] ∧
  handleToolResult result old = Some (JArr (todo_js <$> all)) ∧
  header_count (JArr (todo_js <$> all)) =
    Some (if Nat.eqb (length all) 0 then "No items"
          else String.append (index_key (length all - openCount all))
                 (String.append "/" (String.append (index_key (length all)) " done"))).
Proof.
  intros Hreach Hcb [r Hr] result all data.
  destruct (serve_result J call todos) as (fs & Hres & Htodos).
  fold result in Hres. fold all in Htodos.
  split_and!.
  - destruct (response_settles cfg s data id r (reachable_Inv cfg s Hreach))
      as (_ & _ & _ & _ & _ & _ & _ & Htr); [by subst data; rewrite Hres | done | done |].
    rewrite Htr. subst data. simpl. rewrite Hcb, toolResults_app. done.
  - rewrite Hres. unfold handleToolResult. by rewrite Htodos.
  - unfold header_count. rewrite nullish_todo_js, length_fmap.
    pose proof (completedCount_todo_js all) as Hcount.
    replace (completedCount (todo_js <$> all)) with (length all - openCount all)%nat by lia.
    done.
Qed.

Lemma served_result_reaches_app_witness :
  let s := snd (callTool "todo_toggle" (JObj [("id", JStr "todo_1")]) initial) in
  let result := snd (serve no_text (TodoToggle "todo_1") two_todos) in
  toolResults (trace (handleMessage app_cfg (reply (JNum 1) result) s)) = [result] ∧
  header_count (JArr (todo_js <$> todos_values
                        (fst (serve no_text (TodoToggle "todo_1") two_todos))))
    = Some "2/2 done".
Proof.
  intros s result.
  destruct (served_result_reaches_app no_text app_cfg s 1 (TodoToggle "todo_1")
              two_todos (JArr [])) as (Hcb & _ & Hheader).
  - by exists [CallTool "todo_toggle" (JObj [("id", JStr "todo_1")])].
  - reflexivity.
  - by eexists.
  - split; [exact Hcb | rewrite Hheader; reflexivity].
Defined.

(** X22.  The application fetches the todos at most once, and not before
    the host is ready: over any series of runs of the effect, it calls
    [callTool("todo_list", {})] in the first run that sees [isReady]
    true and in no other. *)
Theorem initial_fetch_at_most_once (renders : list bool) :
  effect_runs renders false =
    (if existsb (λ isReady, isReady) renders
     then [CallTool "todo_list" (JObj [])] else []) ∧
  effect_runs renders true = [].
Proof.
  induction renders as [|isReady renders [IHf IHt]]; [done|].
  destruct isReady; simpl; by rewrite ?IHf, ?IHt.
Qed.

(** X23.  A response whose [error] is present but falsy ([null], 0, an
    empty string, [false]) and that carries no [result] counts as a
    success with the result [undefined]: the pending record is removed,
    [resolve] is called with [undefined] and the promise of the request
    is fulfilled with it, not rejected; a registered [onToolResult] is
    then called with [undefined], the value on which the application's
    [handleToolResult] throws.  What [callTool] does after the callback
    is not stated here. *)
Theorem falsy_error_resolves_with_undefined
    (cfg : Config) (s : State) (data : JsVal) (id : Z) :
  reachable cfg s →
  is_response data = true →
  prop data "id" = JNum id →
  is_Some (pendingRequestsRef s !! id) →
  truthy (prop data "error") = false →
  prop data "result" = JUndefined →
  pendingRequestsRef (handleMessage cfg data s) !! id = None ∧
  promises (handleMessage cfg data s) !! id = Some (Fulfilled JUndefined) ∧
  (∃ rest, trace (handleMessage cfg data s) =
             trace s ++ Resolve id JUndefined ::
               (if onToolResult cfg then [ToolResult JUndefined] else []) ++ rest ∧
           toolResults rest = [] ∧ count (settles id) rest = 0%nat) ∧
  ∀ todos, handleToolResult JUndefined todos = None.
Proof.
  intros Hreach Hresp Hid [r Hr] Herr Hres.
  pose proof (reachable_Inv cfg s Hreach) as HI.
  destruct (response_settles cfg s data id r HI Hresp Hid Hr)
    as (_ & Hpend & _ & _ & _ & _ & _ & Htr).
  pose proof (response_promises cfg s data id r HI Hresp Hid Hr) as Hprom.
  rewrite Herr, Hres in Htr, Hprom. simpl in Htr.
  split_and!.
  - rewrite Hpend. apply lookup_delete_eq.
  - rewrite Hprom. apply lookup_insert_eq.
  - exists [CallToolFulfilled id JUndefined]. by rewrite Htr.
  - done.
Qed.

Lemma falsy_error_resolves_with_undefined_witness :
  let s := snd (callTool "todo_add" milk initial) in
  let s' := handleMessage app_cfg (error_reply (JNum 1) JNull) s in
  promises s' !! 1 = Some (Fulfilled JUndefined) ∧
  toolResults (trace s') = [JUndefined].
Proof.
  intros s s'.
  destruct (falsy_error_resolves_with_undefined app_cfg s (error_reply (JNum 1) JNull) 1)
    as (_ & Hprom & _ & _).
  - by exists [CallTool "todo_add" milk].
  - reflexivity.
  - reflexivity.
  - by eexists.
  - reflexivity.
  - reflexivity.
  - split; [exact Hprom | reflexivity].
Defined.
